(** * PDF colour-page analyser: page classification, document scan and
      page-range formatting

    Shallow embedding of [analyze_pdf] and [format_page_list] as they are
    written in [src/app.py] (the Streamlit front end) and in
    [src/pdf_color_page_analyzer.py] (the Tk front end).  The two files carry
    textually identical copies of the per-page classification block and of
    [format_page_list]; they differ in the progress bar, the temporary file
    and the shape of the returned tuple, which are modelled per front end in
    the modules [App] and [Desktop].

    Python integers are unbounded, so page numbers and channel samples are
    [Z].  Effects are explicit: every observable operation (a byte read of
    the raster, a progress update, a render, an append to a result list, the
    error report) is logged in an event trace, and a computation either
    returns a value or raises.  Both front ends guard their scan with
    [except Exception], so an exception is known by whether it is an
    instance of [Exception] or not. *)

From stdpp Require Import base numbers list strings pretty sorting.

Local Open Scope Z_scope.

(** ** Effects: a trace of events and exceptions *)

Inductive Classification := Color | Monochrome.

Inductive Event :=
  | EvTempWrite                         (* temp_file.write(file.getbuffer()) *)
  | EvOpen                              (* fitz.open(...) *)
  | EvProgressInit                      (* st.progress(0) *)
  | EvProgress (num den : Z)            (* progress_bar.progress(num / den) *)
  | EvRender (page_num : nat)           (* doc.load_page + page.get_pixmap *)
  | EvRead (offset : nat)               (* img_data[offset] *)
  | EvAppend (c : Classification) (p : Z)  (* color_pages / bw_pages .append(p) *)
  | EvClose                             (* doc.close() *)
  | EvUnlink                            (* os.unlink(temp_file_path) *)
  | EvError.                            (* st.error / messagebox.showerror *)

Global Instance Classification_eq_dec : EqDecision Classification.
Proof. solve_decision. Defined.
Global Instance Event_eq_dec : EqDecision Event.
Proof. solve_decision. Defined.

(** What is raised: an instance of [Exception] (IndexError, OSError, the
    errors of PyMuPDF, ...), or one of the other instances of
    [BaseException] (KeyboardInterrupt, SystemExit, GeneratorExit, ...). *)
Inductive Exc :=
  | Exception
  | OtherBaseException.

Global Instance Exc_eq_dec : EqDecision Exc.
Proof. solve_decision. Defined.

(** How a call ends. *)
Inductive Outcome (A : Type) : Type :=
  | Returns (a : A)
  | Raises (e : Exc).

Global Arguments Returns {A} a.
Global Arguments Raises {A} e.

(** A computation returns a value or raises, and has performed a list of
    events up to that point. *)
Definition M (A : Type) : Type := (Outcome A * list Event)%type.

Definition ret {A} (a : A) : M A := (Returns a, []).
Definition raise {A} (e : Exc) : M A := (Raises e, []).
Definition emit (e : Event) : M unit := (Returns tt, [e]).

Definition bind {A B} (m : M A) (k : A → M B) : M B :=
  match m.1 with
  | Returns a => let r := k a in (r.1, m.2 ++ r.2)
  | Raises e => (Raises e, m.2)
  end.

(** [try: body except Exception: handler]: the handler runs for an
    instance of [Exception]; any other exception passes through. *)
Definition try_except {A} (body handler : M A) : M A :=
  match body.1 with
  | Returns a => body
  | Raises Exception => (handler.1, body.2 ++ handler.2)
  | Raises OtherBaseException => body
  end.

(** An external operation that logs [e] and ends as [r] says. *)
Definition io (e : Event) (r : Outcome unit) : M unit := (r, [e]).

Notation "x <- m ;; k" := (bind m (λ x, k))
  (at level 100, m at next level, right associativity,
   format "'[v' x  <-  m  ;;  '/' k ']'").

(** ** Python built-ins used by the source *)

(** [range(start, stop, step)] for a positive [step]. *)
Definition py_range (start stop step : nat) : list nat :=
  (λ k, start + k * step)%nat <$> seq 0 ((stop - start + step - 1) / step)%nat.

(** [seq[i]] for a non-negative [i]: the element, or IndexError when [i]
    is not below [len(seq)]; the access is logged in both cases. *)
Definition getitem (img_data : list Z) (i : nat) : M Z :=
  match img_data !! i with
  | Some v => (Returns v, [EvRead i])
  | None => (Raises Exception, [EvRead i])
  end.

(** [list.sort()] on integers: the ascending rearrangement. *)
Definition py_sort (l : list Z) : list Z := merge_sort Z.le l.

(** [str(n)] for an integer. *)
Definition str (n : Z) : string := pretty n.

(** [sep.join(parts)] *)
Definition join (sep : string) (parts : list string) : string :=
  String.concat sep parts.

(** ** Data model *)

Record Colorspace := { cs_n : Z }.

(** [pix.colorspace] may be [None]; [pix.samples] is the flat buffer. *)
Record Pixmap := { colorspace : option Colorspace; samples : list Z }.

(** What loading and rasterising a page gives: its pixmap, or the exception
    raised. *)
Abbreviation Page := (Outcome Pixmap).

(** ** Per-page classification (app.py 30-49, pdf_color_page_analyzer.py 27-46) *)

(** [abs(r - g) > 5 or abs(r - b) > 5 or abs(g - b) > 5] *)
Definition differs (r g b : Z) : bool :=
  (5 <? Z.abs (r - g)) || (5 <? Z.abs (r - b)) || (5 <? Z.abs (g - b)).

(** The [for i in range(0, len(img_data), 3 * 10)] loop; the result is the
    final value of [is_color].  [true] is the [break]. *)
Fixpoint sample_loop (img_data : list Z) (offsets : list nat) : M bool :=
  match offsets with
  | [] => ret false
  | i :: rest =>
      if bool_decide (i + 2 < length img_data)%nat then
        r <- getitem img_data i ;;
        g <- getitem img_data (i + 1) ;;
        b <- getitem img_data (i + 2) ;;
        if differs r g b then ret true
        else sample_loop img_data rest
      else sample_loop img_data rest
  end.

(** The verdict of the block
    [if pix.colorspace and pix.colorspace.n >= 3: ... else: ...]. *)
Definition classify (pix : Pixmap) : M Classification :=
  match colorspace pix with
  | Some cs =>
      if 3 <=? cs_n cs then
        let img_data := samples pix in
        is_color <- sample_loop img_data (py_range 0 (length img_data) (3 * 10)) ;;
        ret (if is_color then Color else Monochrome)
      else ret Monochrome
  | None => ret Monochrome
  end.

(** The append that each branch of the block ends with: the state is the
    pair [(color_pages, bw_pages)]. *)
Definition record_page (c : Classification) (p : Z) (acc : list Z * list Z)
  : M (list Z * list Z) :=
  _ <- emit (EvAppend c p) ;;
  match c with
  | Color => ret (acc.1 ++ [p], acc.2)
  | Monochrome => ret (acc.1, acc.2 ++ [p])
  end.

Definition classify_page (pix : Pixmap) (p : Z) (acc : list Z * list Z)
  : M (list Z * list Z) :=
  c <- classify pix ;;
  record_page c p acc.

(** ** Document scan *)

(** [fitz.open]: the pages of the document, or an exception. *)
Definition open_doc (d : Outcome (list Page)) : M (list Page) := (d, [EvOpen]).

(** [doc.load_page(page_num)] followed by [page.get_pixmap(alpha=False)];
    a page number outside the document is an error of [load_page]. *)
Definition render (doc : list Page) (page_num : nat) : M Pixmap :=
  match doc !! page_num with
  | Some page => (page, [EvRender page_num])
  | None => (Raises Exception, [EvRender page_num])
  end.

(** The body of [for page_num in range(...)], iterated.  [prelude] is what a
    front end does at the top of each iteration before loading the page. *)
Fixpoint page_loop (prelude : nat → M unit) (doc : list Page)
    (page_nums : list nat) (acc : list Z * list Z) : M (list Z * list Z) :=
  match page_nums with
  | [] => ret acc
  | page_num :: rest =>
      _ <- prelude page_num ;;
      pix <- render doc page_num ;;
      acc' <- classify_page pix (Z.of_nat page_num + 1) acc ;;
      page_loop prelude doc rest acc'
  end.

(** src/app.py *)
Module App.

(** The uploaded file: how writing the temporary copy ends, what
    [fitz.open] makes of it, and how removing the copy ends. *)
Record Upload := {
  write : Outcome unit;
  document : Outcome (list Page);
  unlink : Outcome unit
}.

(** [progress_bar.progress((page_num + 1) / total_pages)]: the event
    carries numerator and denominator of the quotient. *)
Definition update_progress (total_pages : nat) (page_num : nat) : M unit :=
  emit (EvProgress (Z.of_nat page_num + 1) (Z.of_nat total_pages)).

Definition analyze_pdf_body (file : Upload) : M (list Z * list Z * Z) :=
  _ <- io EvTempWrite (write file) ;;
  doc <- open_doc (document file) ;;
  _ <- emit EvProgressInit ;;
  let total_pages := length doc in
  pages <- page_loop (update_progress total_pages) doc
             (py_range 0 total_pages 1) ([], []) ;;
  _ <- emit EvClose ;;
  _ <- io EvUnlink (unlink file) ;;
  ret (pages.1, pages.2, Z.of_nat total_pages).

Definition analyze_pdf (file : Upload) : M (list Z * list Z * Z) :=
  try_except (analyze_pdf_body file)
             (_ <- emit EvError ;; ret ([], [], 0)).

End App.

(** src/pdf_color_page_analyzer.py *)
Module Desktop.

Definition analyze_pdf_body (file_path : Outcome (list Page)) : M (list Z * list Z) :=
  doc <- open_doc file_path ;;
  pages <- page_loop (λ _, ret tt) doc (py_range 0 (length doc) 1) ([], []) ;;
  _ <- emit EvClose ;;
  ret pages.

Definition analyze_pdf (file_path : Outcome (list Page)) : M (list Z * list Z) :=
  try_except (analyze_pdf_body file_path)
             (_ <- emit EvError ;; ret ([], [])).

End Desktop.

(** ** Page-range formatting (app.py 62-88, pdf_color_page_analyzer.py 80-106) *)

(** [str(start)] when [start == end], else [f"{start}-{end}"]. *)
Definition render_range (start end_ : Z) : string :=
  if bool_decide (start = end_) then str start
  else str start +:+ "-" +:+ str end_.

(** The [for i in range(1, len(page_list))] loop over the state
    [(result, start, end)]; [page_list[i]] out of range is IndexError. *)
Fixpoint format_loop (page_list : list Z) (idxs : list nat)
    (st : list string * Z * Z) : option (list string * Z * Z) :=
  match idxs with
  | [] => Some st
  | i :: rest =>
      let '(result, start, end_) := st in
      x ← page_list !! i;
      if bool_decide (x = end_ + 1) then
        format_loop page_list rest (result, start, x)
      else
        format_loop page_list rest (result ++ [render_range start end_], x, x)
  end.

(** [format_page_list] returns the string together with the content of the
    caller's list object on return ([page_list.sort()] sorts it in place);
    [None] is an exception. *)
Definition format_page_list (page_list : list Z) : option (string * list Z) :=
  if bool_decide (page_list = []) then Some (EmptyString, page_list)
  else
    let page_list := py_sort page_list in
    start ← page_list !! 0%nat;
    st ← format_loop page_list (py_range 1 (length page_list) 1) ([], start, start);
    let '(result, start, end_) := st in
    let result := result ++ [render_range start end_] in
    Some (join ", " result, page_list).

(** ** The formatter as the specification words it *)

(** Maximal runs of consecutive integers of a list, in order: successive
    elements that differ by exactly 1 belong to the same run. *)
Fixpoint group_runs (l : list Z) : list (list Z) :=
  match l with
  | [] => []
  | x :: t =>
      match group_runs t with
      | (y :: run) :: runs =>
          if bool_decide (y = x + 1) then (x :: y :: run) :: runs
          else [x] :: (y :: run) :: runs
      | _ => [[x]]
      end
  end.

(** A run of length 1 is its number, a longer one is ["first-last"]. *)
Definition render_run (run : list Z) : string :=
  match run with
  | [] => EmptyString
  | [x] => str x
  | x :: y :: t => str x +:+ "-" +:+ str (List.last t y)
  end.

Definition spec_format (pages : list Z) : string :=
  join ", " (render_run <$> group_runs (py_sort pages)).

(** ** The sampling as the specification words it *)


Definition triple_at (img_data : list Z) (i : nat) : option (Z * Z * Z) :=
  r ← img_data !! i; g ← img_data !! (i + 1)%nat; b ← img_data !! (i + 2)%nat;
  Some (r, g, b).

(** Whether the pixel whose leading channel sits at offset [i] exceeds the
    threshold. *)
Definition chromatic_at (img_data : list Z) (i : nat) : bool :=
  match triple_at img_data i with
  | Some (r, g, b) => differs r g b
  | None => false
  end.


(** ** Vocabulary of the statements *)

Definition is_read (e : Event) : Prop :=
  match e with EvRead _ => True | _ => False end.

(** The verdict as a pure function of the pixmap. *)
Definition verdict (pix : Pixmap) : Classification :=
  match colorspace pix with
  | Some cs =>
      if 3 <=? cs_n cs then
        if existsb (chromatic_at (samples pix))
                   (py_range 0 (length (samples pix)) 30)
        then Color else Monochrome
      else Monochrome
  | None => Monochrome
  end.

(** The triple [(r, g, b)] is read by the walk at offset [i]: [i] is a
    multiple of the stride and all three bytes are inside the buffer. *)
Definition sampled (img_data : list Z) (i : nat) (r g b : Z) : Prop :=
  (∃ k, i = k * 30)%nat ∧
  img_data !! i = Some r ∧ img_data !! (i + 1)%nat = Some g ∧
  img_data !! (i + 2)%nat = Some b.

(** The three accesses [img_data[i], img_data[i+1], img_data[i+2]] of the
    walk at its [k]-th stop, [i = 30 * k]. *)
Definition triple_reads (k : nat) : list Event :=
  [EvRead (30 * k); EvRead (30 * k + 1); EvRead (30 * k + 2)].


(** The run [s, s + 1, ..., s + k] of consecutive integers. *)
Fixpoint run_from (s : Z) (k : nat) : list Z :=
  match k with
  | O => [s]
  | S k' => s :: run_from (s + 1) k'
  end.

Definition is_run (run : list Z) : Prop := ∃ s k, run = run_from s k.

(** No run can be extended by the run that follows it: the first element
    of the next run is not the successor of the last element of this one. *)
Fixpoint maximal (runs : list (list Z)) : Prop :=
  match runs with
  | r1 :: (r2 :: _) as later =>
      (∀ a b, last r1 = Some a → head r2 = Some b → b ≠ a + 1) ∧ maximal later
  | _ => True
  end.


(** The page loads and rasterises. *)
Definition renders (page : Page) : Prop := ∃ pix, page = Returns pix.

(** The 1-based page number of a 0-based page index. *)
Definition page_number (page_num : nat) : Z := Z.of_nat page_num + 1.

Definition page_verdict (doc : list Page) (page_num : nat) : Classification :=
  match doc !! page_num with
  | Some (Returns pix) => verdict pix
  | _ => Monochrome
  end.

(** What one iteration over a page that renders leaves in the trace. *)
Definition page_trace (prelude : nat → M unit) (doc : list Page)
    (page_num : nat) : list Event :=
  match doc !! page_num with
  | Some (Returns pix) =>
      (prelude page_num).2 ++
      [EvRender page_num] ++
      ((classify pix).2 ++ [EvAppend (verdict pix) (page_number page_num)])
  | _ => []
  end.

Definition color_pages_of (doc : list Page) (page_nums : list nat) : list Z :=
  page_number <$> filter (λ i, page_verdict doc i = Color) page_nums.

Definition bw_pages_of (doc : list Page) (page_nums : list nat) : list Z :=
  page_number <$> filter (λ i, ¬ page_verdict doc i = Color) page_nums.

(** [color_pages] and [bw_pages] partition the page numbers 1 .. total. *)
Definition partitions (color_pages bw_pages : list Z) (total : nat) : Prop :=
  color_pages ++ bw_pages ≡ₚ seqZ 1 (Z.of_nat total) ∧
  NoDup (color_pages ++ bw_pages) ∧
  (∀ p, p ∈ color_pages → p ∉ bw_pages) ∧
  (∀ p, 1 ≤ p ≤ Z.of_nat total ↔ p ∈ color_pages ∨ p ∈ bw_pages) ∧
  (length color_pages + length bw_pages = total)%nat.

Definition not_error (e : Event) : Prop := e ≠ EvError.

Definition is_progress (e : Event) : Prop :=
  match e with EvProgress _ _ => True | _ => False end.

Global Instance is_progress_dec e : Decision (is_progress e).
Proof. destruct e; simpl; apply _. Defined.

(** Every progress report for [num] pages completed comes after page
    number [num] has been classified and recorded. *)
Definition progress_after_classification (trace : list Event) : Prop :=
  ∀ before after num den,
    trace = before ++ EvProgress num den :: after →
    ∃ c, EvAppend c num ∈ before.

(** An upload of one grayscale page that is stored, opened and removed
    without trouble. *)
Definition one_page_upload : App.Upload :=
  {| App.write := Returns tt;
     App.document :=
       Returns [Returns {| colorspace := Some {| cs_n := 1 |}; samples := [0] |}];
     App.unlink := Returns tt |}.

(** Three pages: a red RGB page, a gray RGB page and a grayscale page. *)
Definition three_pages : list Page :=
  [Returns {| colorspace := Some {| cs_n := 3 |}; samples := [255; 0; 0] |};
   Returns {| colorspace := Some {| cs_n := 3 |}; samples := [90; 90; 90] |};
   Returns {| colorspace := Some {| cs_n := 1 |}; samples := [17] |}].

(** A red page followed by a page that fails to render. *)
Definition second_page_broken : list Page :=
  [Returns {| colorspace := Some {| cs_n := 3 |}; samples := [255; 0; 0] |};
   Raises Exception].

(** ** The callers: result display of the two front ends *)

(** The newline character of the f-strings. *)
Definition nl : string :=
  String (Stdlib.Strings.Ascii.ascii_of_nat 10) EmptyString.

(** [len(xs)] inside an f-string. *)
Definition str_len {A} (xs : list A) : string := str (Z.of_nat (length xs)).

(** A Tk [Text] widget: its text and whether its state is [NORMAL].  In
    state [DISABLED] the widget ignores [insert] and [delete]. *)
Record TextWidget := { content : string; editable : bool }.

(** [w.config(state=...)] *)
Definition tk_config_state (normal : bool) (w : TextWidget) : TextWidget :=
  {| content := content w; editable := normal |}.

(** [w.delete(1.0, tk.END)] *)
Definition tk_delete_all (w : TextWidget) : TextWidget :=
  if editable w then {| content := EmptyString; editable := true |} else w.

(** [w.insert(tk.END, s)] *)
Definition tk_insert_end (s : string) (w : TextWidget) : TextWidget :=
  if editable w then {| content := content w +:+ s; editable := true |} else w.

Module DesktopUi.

(** [display_results] of src/pdf_color_page_analyzer.py (lines 55-78).  The
    result is the widget and the two list objects as the call leaves them;
    [None] is an exception. *)
Definition display_results (color_pages bw_pages : list Z)
    (result_text : TextWidget) : option (TextWidget * list Z * list Z) :=
  let w := tk_config_state true result_text in
  let w := tk_delete_all w in
  let total_pages := (length color_pages + length bw_pages)%nat in
  st ←
    (if bool_decide (color_pages ≠ []) then
       if bool_decide (length color_pages = total_pages) then
         Some (tk_insert_end ("All " +:+ str (Z.of_nat total_pages)
                              +:+ " pages contain color." +:+ nl +:+ nl) w,
               color_pages)
       else
         let w := tk_insert_end ("Color pages (" +:+ str_len color_pages +:+ "/"
                                 +:+ str (Z.of_nat total_pages) +:+ "): ") w in
         r ← format_page_list color_pages;
         Some (tk_insert_end (r.1 +:+ nl +:+ nl) w, r.2)
     else Some (w, color_pages));
  let '(w, color_pages) := st in
  st ←
    (if bool_decide (bw_pages ≠ []) then
       if bool_decide (length bw_pages = total_pages) then
         Some (tk_insert_end ("All " +:+ str (Z.of_nat total_pages)
                              +:+ " pages are black and white." +:+ nl) w,
               bw_pages)
       else
         let w := tk_insert_end ("Black and white pages (" +:+ str_len bw_pages +:+ "/"
                                 +:+ str (Z.of_nat total_pages) +:+ "): ") w in
         r ← format_page_list bw_pages;
         Some (tk_insert_end (r.1 +:+ nl) w, r.2)
     else Some (w, bw_pages));
  let '(w, bw_pages) := st in
  Some (tk_config_state false w, color_pages, bw_pages).

(** The widgets [thread_func] touches. *)
Record Gui := {
  status_label : string;
  process_button : bool;          (* state NORMAL *)
  result_text : TextWidget
}.

(** [thread_func] inside [process_pdf] (lines 110-119).  [basename] is
    [os.path.basename(file_path)]; [file_path] is what the path holds for
    [fitz.open].  The function has no handler of its own: an exception that
    [analyze_pdf] lets through ends it on the spot.  The result is how the
    call ends, with its events, and the widgets as it leaves them.  An
    IndexError inside [display_results] would end it too; it cannot occur,
    since [format_page_list] raises on no input. *)
Definition thread_func (basename : string) (file_path : Outcome (list Page))
    (gui : Gui) : M unit * Gui :=
  let gui := {| status_label := "Analyzing PDF: " +:+ basename +:+ "...";
                process_button := process_button gui;
                result_text := result_text gui |} in
  let gui := {| status_label := status_label gui; process_button := false;
                result_text := result_text gui |} in
  let scan := Desktop.analyze_pdf file_path in
  match scan.1 with
  | Raises e => ((Raises e, scan.2), gui)
  | Returns pages =>
      let gui := {| status_label := "Analysis complete: " +:+ basename;
                    process_button := process_button gui;
                    result_text := result_text gui |} in
      let gui := {| status_label := status_label gui; process_button := true;
                    result_text := result_text gui |} in
      match display_results pages.1 pages.2 (result_text gui) with
      | Some shown =>
          ((Returns tt, scan.2),
           {| status_label := status_label gui;
              process_button := process_button gui;
              result_text := shown.1.1 |})
      | None => ((Raises Exception, scan.2), gui)
      end
  end.

End DesktopUi.

Module AppUi.

(** The Streamlit calls [main] makes once a file is uploaded. *)
Inductive StCall :=
  | st_spinner (text : string)
  | st_success (text : string)
  | st_subheader (text : string)
  | st_warning (text : string)
  | st_columns (n : Z)
  | st_metric (label : string) (value : Z)
  | st_expander (label : string)
  | st_write (text : string).

(** The part of [main] of src/app.py under [if uploaded_file is not None]
    (lines 102-134).  [name] is [uploaded_file.name].  The result lists the
    Streamlit calls in order; the events of [analyze_pdf], which runs inside
    the spinner, are in the trace.  [main] has no handler: an exception that
    [analyze_pdf] lets through ends it. *)
Definition main_uploaded (name : string) (uploaded_file : App.Upload)
  : M (list StCall) :=
  r <- App.analyze_pdf uploaded_file ;;
  let '(color_pages, bw_pages, total_pages) := r in
  let calls := [st_spinner "Analyzing PDF...";
                st_success ("Analysis complete: " +:+ name);
                st_subheader "Results"] in
  if bool_decide (total_pages = 0) then
    ret (calls ++ [st_warning "No pages were analyzed. The file might be empty or corrupted."])
  else
    let calls := calls ++ [st_columns 2; st_metric "Total Pages" total_pages;
                           st_metric "Color Pages" (Z.of_nat (length color_pages))] in
    match
      (if bool_decide (color_pages ≠ []) then
         if bool_decide (Z.of_nat (length color_pages) = total_pages) then
           Some (calls ++ [st_expander "Color Pages";
                           st_write ("All " +:+ str total_pages +:+ " pages contain color.")])
         else
           r ← format_page_list color_pages;
           Some (calls ++ [st_expander "Color Pages";
                           st_write ("Color pages (" +:+ str_len color_pages +:+ "/"
                                     +:+ str total_pages +:+ "): " +:+ r.1)])
       else Some calls)
    with
    | None => raise Exception
    | Some calls =>
        match
          (if bool_decide (bw_pages ≠ []) then
             if bool_decide (Z.of_nat (length bw_pages) = total_pages) then
               Some (calls ++ [st_expander "Black and White Pages";
                               st_write ("All " +:+ str total_pages
                                         +:+ " pages are black and white.")])
             else
               r ← format_page_list bw_pages;
               Some (calls ++ [st_expander "Black and White Pages";
                               st_write ("Black and white pages (" +:+ str_len bw_pages +:+ "/"
                                         +:+ str total_pages +:+ "): " +:+ r.1)])
           else Some calls)
        with
        | None => raise Exception
        | Some calls => ret calls
        end
    end.

End AppUi.

(** What [main] of src/app.py shows before the verdicts: the spinner, the
    success banner and the header. *)
Definition main_banner (name : string) : list AppUi.StCall :=
  [AppUi.st_spinner "Analyzing PDF...";
   AppUi.st_success ("Analysis complete: " +:+ name);
   AppUi.st_subheader "Results"].

Definition main_warning : AppUi.StCall :=
  AppUi.st_warning "No pages were analyzed. The file might be empty or corrupted.".

(** ** The callers: which paths the desktop front end analyses *)

(** In this part a Python [str] is the list of its characters; [chars]
    turns a literal into one.  Characters are bytes: a path outside ASCII is
    its UTF-8 encoding, on which the operations below act as they do on the
    text, since they only look for ASCII characters. *)
Abbreviation ascii := Stdlib.Strings.Ascii.ascii.
Abbreviation chars := Stdlib.Strings.String.list_ascii_of_string.

(** [s.startswith(p)] and [s.endswith(p)] *)
Definition py_startswith (p s : list ascii) : bool := bool_decide (p `prefix_of` s).
Definition py_endswith (p s : list ascii) : bool := bool_decide (p `suffix_of` s).

(** [s.lstrip(set)] and [s.strip(set)]: drop the characters of [set] from
    the left end, resp. from both ends. *)
Fixpoint py_lstrip (set : list ascii) (s : list ascii) : list ascii :=
  match s with
  | c :: t => if bool_decide (c ∈ set) then py_lstrip set t else s
  | [] => []
  end.

Definition py_strip (set : list ascii) (s : list ascii) : list ascii :=
  reverse (py_lstrip set (reverse (py_lstrip set s))).

(** [s.replace(old, new)] for a non-empty [old]: the occurrences of [old]
    are replaced from left to right, without overlap.  The fuel bounds the
    number of steps; [length s] is enough. *)
Fixpoint py_replace_go (fuel : nat) (old new s : list ascii) : list ascii :=
  match fuel with
  | O => s
  | S fuel =>
      if bool_decide (old `prefix_of` s) then
        new ++ py_replace_go fuel old new (drop (length old) s)
      else
        match s with
        | [] => []
        | c :: t => c :: py_replace_go fuel old new t
        end
  end.

Definition py_replace (old new s : list ascii) : list ascii :=
  py_replace_go (length s) old new s.

(** [s.lower()] on the letters A-Z.  The source uses [lower] only in front
    of [endswith('.pdf')], and no character outside A-Z lowers to one of
    the characters of ".pdf". *)
Definition lower_char (c : ascii) : ascii :=
  let n := Stdlib.Strings.Ascii.nat_of_ascii c in
  if bool_decide (65 ≤ n ≤ 90)%nat
  then Stdlib.Strings.Ascii.ascii_of_nat (n + 32) else c.

Definition py_lower (s : list ascii) : list ascii := lower_char <$> s.

(** What a handler of the desktop front end ends up doing. *)
Inductive GuiAction :=
  | StartProcess (file_path : list ascii)     (* process_pdf(file_path, ...) *)
  | ShowError (message : string)              (* messagebox.showerror *)
  | NoAction.

(** [select_file] (lines 122-132); [file_path] is what
    [filedialog.askopenfilename] returned, empty when the dialog was
    cancelled. *)
Definition select_file (file_path : list ascii) : GuiAction :=
  if bool_decide (file_path ≠ []) && py_endswith (chars ".pdf") (py_lower file_path)
  then StartProcess file_path
  else if bool_decide (file_path ≠ []) then ShowError "Please select a PDF file."
  else NoAction.

(** The path [on_drop] (lines 201-218) makes of [event.data]. *)
Definition on_drop_path (data : list ascii) : list ascii :=
  let file_path := data in
  let file_path :=
    if py_startswith (chars "{") file_path
    then py_strip (chars "{}") file_path else file_path in
  let file_path :=
    if py_startswith (chars "file:///") file_path
    then drop 8 file_path else file_path in
  py_replace (chars "%20") (chars " ") file_path.

(** [on_drop]; [isfile] is [os.path.isfile]. *)
Definition on_drop (isfile : list ascii → bool) (data : list ascii) : GuiAction :=
  let file_path := on_drop_path data in
  if isfile file_path && py_endswith (chars ".pdf") (py_lower file_path)
  then StartProcess file_path
  else ShowError "Please drop a valid PDF file.".

(** [needle] occurs in [s] as a contiguous piece. *)
Definition occurs_in (needle s : list ascii) : Prop :=
  ∃ before after, s = before ++ needle ++ after.

(** The spellings of the extension that count as PDF. *)
Definition pdf_extensions : list (list ascii) :=
  [chars ".pdf"; chars ".pdF"; chars ".pDf"; chars ".pDF";
   chars ".Pdf"; chars ".PdF"; chars ".PDf"; chars ".PDF"].

Definition has_pdf_extension (file_path : list ascii) : Prop :=
  ∃ stem ext, file_path = stem ++ ext ∧ ext ∈ pdf_extensions.

(** Neither the first nor the last character of [s] is a brace. *)
Definition no_brace_at_ends (s : list ascii) : Prop :=
  (∀ c, head s = Some c → c ∉ chars "{}") ∧
  (∀ c, last s = Some c → c ∉ chars "{}").

(** A decimal digit, and a string of decimal digits. *)
Definition digit (c : ascii) : Prop := c ∈ chars "0123456789".

Fixpoint digits (s : string) : Prop :=
  match s with
  | EmptyString => True
  | String c t => digit c ∧ digits t
  end.

(** A string that is empty or starts with something else than a digit. *)
Definition no_digit_ahead (s : string) : Prop :=
  match s with
  | EmptyString => True
  | String c _ => ¬ digit c
  end.

(** What follows the first item of the text. *)
Definition items_tail (items : list string) : string :=
  match items with
  | [] => EmptyString
  | _ :: _ => ", " +:+ join ", " items
  end.

(** A run of consecutive numbers that starts at a number that is not
    negative. *)
Definition good_run (run : list Z) : Prop :=
  ∃ s k, 0 ≤ s ∧ run = run_from s k.

(** What follows the first number of the text of a run and the items
    after it. *)
Definition after_first (s : Z) (k : nat) (items : list string) : string :=
  match k with
  | O => items_tail items
  | S _ => "-" +:+ str (s + Z.of_nat k) +:+ items_tail items
  end.

(** ** Vocabulary of the further properties *)

(** Page [i0] is the first page of [doc] that does not render, and it
    raises [e]. *)
Definition first_broken (doc : list Page) (i0 : nat) (e : Exc) : Prop :=
  doc !! i0 = Some (Raises e) ∧
  ∀ j, (j < i0)%nat → ∃ pix, doc !! j = Some (Returns pix).

(** The first thing that goes wrong in [analyze_pdf] of [src/app.py] raises
    [e]: writing the temporary copy, opening the document, rendering a page,
    or, after all pages, removing the temporary copy. *)
Definition app_failure (file : App.Upload) (e : Exc) : Prop :=
  App.write file = Raises e ∨
  (App.write file = Returns tt ∧
   (App.document file = Raises e ∨
    ∃ doc, App.document file = Returns doc ∧
      ((∃ i0, first_broken doc i0 e) ∨
       (Forall renders doc ∧ App.unlink file = Raises e)))).

(** The same for the desktop front end: opening the document or rendering
    a page. *)
Definition desktop_failure (file_path : Outcome (list Page)) (e : Exc) : Prop :=
  file_path = Raises e ∨
  ∃ doc i0, file_path = Returns doc ∧ first_broken doc i0 e.

(** The events of one loop iteration: progress, render, reads, append. *)
Definition page_event (e : Event) : Prop :=
  match e with
  | EvProgress _ _ | EvRender _ | EvRead _ | EvAppend _ _ => True
  | _ => False
  end.

(** ** Basic facts about the effect monad and the built-ins *)

Lemma bind_Returns {A B} (m : M A) (k : A → M B) a tr :
  m = (Returns a, tr) → bind m k = ((k a).1, tr ++ (k a).2).
Proof. intros ->. reflexivity. Qed.

Lemma bind_Raises {A B} (m : M A) (k : A → M B) e tr :
  m = (Raises e, tr) → bind m k = (Raises e, tr).
Proof. intros ->. reflexivity. Qed.

Lemma bind_eq {A B} (m : M A) (k : A → M B) a tr r tr' :
  m = (Returns a, tr) → k a = (r, tr') → bind m k = (r, tr ++ tr').
Proof. intros -> Hk. unfold bind. simpl. by rewrite Hk. Qed.

Lemma bind_snd_Raises {A B} (m : M A) (k : A → M B) e :
  m.1 = Raises e → (bind m k).2 = m.2.
Proof. intros H. unfold bind. by rewrite H. Qed.

Lemma outcome_eta {A} (m : M A) r : m.1 = r → m = (r, m.2).
Proof. intros <-. by destruct m. Qed.

Lemma bind_fst {A B} (m : M A) (k : A → M B) :
  (bind m k).1 = match m.1 with Returns a => (k a).1 | Raises e => Raises e end.
Proof. unfold bind. by destruct m.1. Qed.

Lemma bind_trace_Forall {A B} (P : Event → Prop) (m : M A) (k : A → M B) :
  Forall P m.2 → (∀ a, Forall P (k a).2) → Forall P (bind m k).2.
Proof.
  intros Hm Hk. unfold bind. destruct m.1; simpl; [|done].
  apply Forall_app. auto.
Qed.

Lemma try_except_ok {A} (body handler : M A) a :
  body.1 = Returns a → try_except body handler = body.
Proof. intros H. unfold try_except. by rewrite H. Qed.

Lemma try_except_caught {A} (body : M A) (x : A) :
  body.1 = Raises Exception →
  try_except body (_ <- emit EvError ;; ret x) = (Returns x, body.2 ++ [EvError]).
Proof. intros H. unfold try_except. by rewrite H. Qed.

Lemma try_except_passes {A} (body handler : M A) :
  body.1 = Raises OtherBaseException → try_except body handler = body.
Proof. intros H. unfold try_except. by rewrite H. Qed.

Lemma mjoin_cons {A} (x : list A) (l : list (list A)) :
  mjoin (x :: l) = x ++ mjoin l.
Proof. reflexivity. Qed.

Lemma py_range_nil start stop step :
  (0 < step)%nat → (stop ≤ start)%nat → py_range start stop step = [].
Proof.
  intros Hs Hle. unfold py_range.
  replace (stop - start + step - 1)%nat with (step - 1)%nat by lia.
  rewrite Nat.div_small by lia. reflexivity.
Qed.

Lemma py_range_cons start stop step :
  (0 < step)%nat → (start < stop)%nat →
  py_range start stop step = start :: py_range (start + step) stop step.
Proof.
  intros Hs Hlt. unfold py_range.
  assert ((stop - start + step - 1) / step
          = S ((stop - (start + step) + step - 1) / step))%nat as ->.
  { destruct (decide (stop - start ≤ step)%nat) as [Hle|Hgt].
    - replace (stop - (start + step) + step - 1)%nat with (step - 1)%nat by lia.
      rewrite (Nat.div_small (step - 1)) by lia.
      symmetry. apply Nat.div_unique with (r := (stop - start - 1)%nat); lia.
    - replace (stop - start + step - 1)%nat
        with ((stop - (start + step) + step - 1) + 1 * step)%nat by lia.
      rewrite Nat.div_add by lia. lia. }
  simpl. f_equal; [lia|].
  rewrite <- fmap_S_seq, <- list_fmap_compose.
  apply list_fmap_ext. intros _ k _. simpl. lia.
Qed.

Lemma py_range_step1 start stop :
  py_range start stop 1 = seq start (stop - start).
Proof.
  unfold py_range.
  replace (stop - start + 1 - 1)%nat with (stop - start)%nat by lia.
  rewrite Nat.div_1_r. generalize (stop - start)%nat as n. intros n.
  trans (Nat.add start <$> seq 0 n).
  - apply list_fmap_ext. intros _ k _. lia.
  - rewrite fmap_add_seq. f_equal. lia.
Qed.

Lemma elem_of_py_range_0 stop step i :
  (0 < step)%nat →
  i ∈ py_range 0 stop step ↔ ∃ k, (i = k * step ∧ i < stop)%nat.
Proof.
  intros Hs. unfold py_range. rewrite list_elem_of_fmap.
  split.
  - intros (k & -> & Hk). apply elem_of_seq in Hk. exists k. split; [lia|].
    destruct Hk as [_ Hk]. simpl in Hk.
    assert (step * S k ≤ stop - 0 + step - 1)%nat; [|nia].
    etrans; [|apply (Nat.Div0.mul_div_le _ step)].
    apply Nat.mul_le_mono_l. lia.
  - intros (k & -> & Hk). exists k. split; [lia|].
    apply elem_of_seq. split; [lia|]. simpl.
    apply (Nat.div_le_lower_bound _ step (S k)); [lia|nia].
Qed.

Lemma py_sort_Sorted l : Sorted Z.le (py_sort l).
Proof. apply (Sorted_merge_sort Z.le). Qed.

Lemma py_sort_Permutation l : py_sort l ≡ₚ l.
Proof. apply merge_sort_Permutation. Qed.

(** The ascending rearrangement is unique: [py_sort] is whatever a correct
    sort returns. *)
Lemma py_sort_unique l s : Sorted Z.le s → s ≡ₚ l → s = py_sort l.
Proof.
  intros Hs Hp. apply (Sorted_unique Z.le); [done|apply py_sort_Sorted|].
  by rewrite Hp, py_sort_Permutation.
Qed.

(** ** The classifier *)

Lemma getitem_lookup img i v :
  img !! i = Some v → getitem img i = (Returns v, [EvRead i]).
Proof. unfold getitem. by intros ->. Qed.

Lemma triple_at_in_bounds (img : list Z) i :
  (i + 2 < length img)%nat →
  ∃ r g b, img !! i = Some r ∧ img !! (i + 1)%nat = Some g
           ∧ img !! (i + 2)%nat = Some b.
Proof.
  intros H.
  destruct (lookup_lt_is_Some_2 img i) as [r Hr]; [lia|].
  destruct (lookup_lt_is_Some_2 img (i + 1)) as [g Hg]; [lia|].
  destruct (lookup_lt_is_Some_2 img (i + 2)) as [b Hb]; [lia|].
  eauto 10.
Qed.

Lemma triple_at_out_of_bounds (img : list Z) i :
  ¬ (i + 2 < length img)%nat → triple_at img i = None.
Proof.
  intros H. unfold triple_at.
  rewrite (lookup_ge_None_2 img (i + 2)) by lia.
  destruct (img !! i); simpl; [|done]. by destruct (img !! (i + 1)%nat).
Qed.

(** One iteration of the sampling loop, with the guard decided. *)
Lemma sample_loop_in_bounds img i rest r g b :
  img !! i = Some r → img !! (i + 1)%nat = Some g → img !! (i + 2)%nat = Some b →
  sample_loop img (i :: rest) =
    if differs r g b then (Returns true, [EvRead i; EvRead (i + 1); EvRead (i + 2)])
    else ((sample_loop img rest).1,
          [EvRead i; EvRead (i + 1); EvRead (i + 2)] ++ (sample_loop img rest).2).
Proof.
  intros Hr Hg Hb. simpl.
  rewrite bool_decide_eq_true_2 by (apply lookup_lt_Some in Hb; lia).
  rewrite (bind_Returns _ _ _ _ (getitem_lookup _ _ _ Hr)).
  rewrite (bind_Returns _ _ _ _ (getitem_lookup _ _ _ Hg)).
  rewrite (bind_Returns _ _ _ _ (getitem_lookup _ _ _ Hb)).
  destruct (differs r g b); reflexivity.
Qed.

Lemma sample_loop_skip img i rest :
  ¬ (i + 2 < length img)%nat → sample_loop img (i :: rest) = sample_loop img rest.
Proof. intros H. simpl. by rewrite bool_decide_eq_false_2. Qed.

(** The loop never raises, and [is_color] ends up true exactly when one of
    the visited offsets holds a triple over the threshold. *)
Lemma sample_loop_fst img offsets :
  (sample_loop img offsets).1 = Returns (existsb (chromatic_at img) offsets).
Proof.
  induction offsets as [|i rest IH]; [done|].
  destruct (decide (i + 2 < length img)%nat) as [Hin|Hout].
  - destruct (triple_at_in_bounds img i Hin) as (r & g & b & Hr & Hg & Hb).
    rewrite (sample_loop_in_bounds _ _ _ _ _ _ Hr Hg Hb).
    cbn [existsb]. unfold chromatic_at at 1, triple_at.
    rewrite Hr, Hg, Hb. simpl. by destruct (differs r g b).
  - rewrite sample_loop_skip by done. cbn [existsb].
    unfold chromatic_at at 1. by rewrite triple_at_out_of_bounds.
Qed.

Lemma sample_loop_reads img offsets : Forall is_read (sample_loop img offsets).2.
Proof.
  induction offsets as [|i rest IH]; [constructor|].
  destruct (decide (i + 2 < length img)%nat) as [Hin|Hout].
  - destruct (triple_at_in_bounds img i Hin) as (r & g & b & Hr & Hg & Hb).
    rewrite (sample_loop_in_bounds _ _ _ _ _ _ Hr Hg Hb).
    destruct (differs r g b); simpl; repeat constructor; done.
  - by rewrite sample_loop_skip.
Qed.

Lemma sample_loop_all_skipped img offsets :
  (∀ i, i ∈ offsets → ¬ (i + 2 < length img)%nat) →
  sample_loop img offsets = ret false.
Proof.
  induction offsets as [|i rest IH]; intros H; [done|].
  rewrite sample_loop_skip by (apply H; left).
  apply IH. intros j Hj. apply H. by right.
Qed.

Lemma classify_fst pix : (classify pix).1 = Returns (verdict pix).
Proof.
  unfold classify, verdict. destruct (colorspace pix) as [cs|]; [|done].
  destruct (3 <=? cs_n cs); [|done].
  pose proof (sample_loop_fst (samples pix) (py_range 0 (length (samples pix)) 30)) as H.
  unfold bind. change (3 * 10)%nat with 30%nat. rewrite H. reflexivity.
Qed.

Lemma classify_reads pix : Forall is_read (classify pix).2.
Proof.
  unfold classify. destruct (colorspace pix) as [cs|]; [|constructor].
  destruct (3 <=? cs_n cs); [|constructor].
  pose proof (sample_loop_fst (samples pix) (py_range 0 (length (samples pix)) 30)) as H.
  pose proof (sample_loop_reads (samples pix) (py_range 0 (length (samples pix)) 30)) as Hr.
  unfold bind. change (3 * 10)%nat with 30%nat. rewrite H. simpl.
  by rewrite app_nil_r.
Qed.

Lemma differs_true r g b :
  differs r g b = true ↔ 5 < Z.abs (r - g) ∨ 5 < Z.abs (r - b) ∨ 5 < Z.abs (g - b).
Proof. unfold differs. rewrite !orb_true_iff, !Z.ltb_lt. tauto. Qed.

Lemma differs_false r g b :
  differs r g b = false ↔ Z.abs (r - g) ≤ 5 ∧ Z.abs (r - b) ≤ 5 ∧ Z.abs (g - b) ≤ 5.
Proof. unfold differs. rewrite !orb_false_iff, !Z.ltb_ge. tauto. Qed.

Lemma chromatic_at_true img i :
  chromatic_at img i = true ↔
  ∃ r g b, img !! i = Some r ∧ img !! (i + 1)%nat = Some g
           ∧ img !! (i + 2)%nat = Some b ∧ differs r g b = true.
Proof.
  unfold chromatic_at, triple_at. split.
  - destruct (img !! i) as [r|]; simpl; [|done].
    destruct (img !! (i + 1)%nat) as [g|]; simpl; [|done].
    destruct (img !! (i + 2)%nat) as [b|]; simpl; [|done].
    intros H. by exists r, g, b.
  - intros (r & g & b & -> & -> & -> & H). done.
Qed.

Lemma existsb_sampled img :
  existsb (chromatic_at img) (py_range 0 (length img) 30) = true ↔
  ∃ i r g b, sampled img i r g b ∧ differs r g b = true.
Proof.
  rewrite existsb_exists. split.
  - intros (i & Hi & Hc). apply list_elem_of_In in Hi.
    apply elem_of_py_range_0 in Hi as (k & -> & _); [|lia].
    apply chromatic_at_true in Hc as (r & g & b & Hr & Hg & Hb & Hd).
    exists (k * 30)%nat, r, g, b. unfold sampled. eauto 10.
  - intros (i & r & g & b & ((k & ->) & Hr & Hg & Hb) & Hd).
    exists (k * 30)%nat. split.
    + apply list_elem_of_In, elem_of_py_range_0; [lia|].
      exists k. split; [done|]. by apply lookup_lt_Some in Hr.
    + apply chromatic_at_true. eauto 10.
Qed.

Lemma verdict_color_iff cs img :
  3 ≤ cs_n cs →
  verdict {| colorspace := Some cs; samples := img |} = Color ↔
  ∃ i r g b, sampled img i r g b ∧ differs r g b = true.
Proof.
  intros Hn. unfold verdict. simpl.
  rewrite (proj2 (Z.leb_le 3 (cs_n cs)) Hn).
  rewrite <- existsb_sampled.
  destruct (existsb _ _); split; done.
Qed.


(** ** Claims about the classifier *)

(** C1: a page whose pixmap has no colorspace, or a colorspace with fewer
    than three channels, is classified Monochrome and its page number is
    appended to the monochrome list, whatever the raster holds; not a byte
    of the raster is read. *)
Theorem classify_without_color_channels pix p acc :
  (colorspace pix = None ∨ ∃ cs, colorspace pix = Some cs ∧ cs_n cs < 3) →
  classify pix = (Returns Monochrome, []) ∧
  classify_page pix p acc = (Returns (acc.1, acc.2 ++ [p]), [EvAppend Monochrome p]).
Proof.
  intros Hcs.
  assert (classify pix = (Returns Monochrome, [])) as Hc.
  { unfold classify. destruct Hcs as [->|(cs & -> & Hn)]; [done|].
    by rewrite (proj2 (Z.leb_gt _ _) Hn). }
  split; [done|]. unfold classify_page. by rewrite Hc.
Qed.

Lemma classify_without_color_channels_witness :
  let pix := {| colorspace := Some {| cs_n := 1 |}; samples := [255; 0; 0; 0; 255; 0] |} in
  classify pix = (Returns Monochrome, []) ∧
  classify_page pix 7 ([1], [2]) = (Returns ([1], [2; 7]), [EvAppend Monochrome 7]).
Proof.
  apply (classify_without_color_channels _ 7 ([1], [2])).
  right. eexists. split; [reflexivity|]. simpl. lia.
Defined.

(** C2: with three or more channels the verdict is Color exactly when some
    sampled pixel has a pairwise channel difference strictly greater than 5,
    and Monochrome exactly when every sampled pixel has all three pairwise
    differences at most 5; so a difference of 5 does not trigger Color and a
    difference of 6 does. *)
Theorem threshold_is_strictly_greater_than_5 cs img :
  3 ≤ cs_n cs →
  let pix := {| colorspace := Some cs; samples := img |} in
  ((classify pix).1 = Returns Color ↔
     ∃ i r g b, sampled img i r g b ∧
       (6 ≤ Z.abs (r - g) ∨ 6 ≤ Z.abs (r - b) ∨ 6 ≤ Z.abs (g - b))) ∧
  ((classify pix).1 = Returns Monochrome ↔
     ∀ i r g b, sampled img i r g b →
       Z.abs (r - g) ≤ 5 ∧ Z.abs (r - b) ≤ 5 ∧ Z.abs (g - b) ≤ 5).
Proof.
  intros Hn pix. rewrite classify_fst.
  pose proof (verdict_color_iff cs img Hn) as Hiff. fold pix in Hiff.
  split.
  - split.
    + intros Hv. assert (verdict pix = Color) as Hv' by congruence.
      apply Hiff in Hv' as (i & r & g & b & Hs & Hd).
      exists i, r, g, b. split; [done|]. apply differs_true in Hd. lia.
    + intros (i & r & g & b & Hs & Hd). f_equal. apply Hiff.
      exists i, r, g, b. split; [done|]. apply differs_true. lia.
  - split.
    + intros Hv i r g b Hs. apply differs_false.
      destruct (differs r g b) eqn:Hd; [|done].
      assert (verdict pix = Color) as Hc by (apply Hiff; eauto 10).
      congruence.
    + intros Hall. f_equal.
      destruct (decide (verdict pix = Color)) as [Hv|Hv];
        [exfalso|by destruct (verdict pix)].
      apply Hiff in Hv as (i & r & g & b & Hs & Hd).
      apply differs_true in Hd. specialize (Hall i r g b Hs). lia.
Qed.

Lemma threshold_is_strictly_greater_than_5_witness :
  let cs := {| cs_n := 3 |} in
  let img := [100; 105; 100; 0; 0; 0] in
  let pix := {| colorspace := Some cs; samples := img |} in
  3 ≤ cs_n cs ∧
  ((classify pix).1 = Returns Color ↔
     ∃ i r g b, sampled img i r g b ∧
       (6 ≤ Z.abs (r - g) ∨ 6 ≤ Z.abs (r - b) ∨ 6 ≤ Z.abs (g - b))) ∧
  ((classify pix).1 = Returns Monochrome ↔
     ∀ i r g b, sampled img i r g b →
       Z.abs (r - g) ≤ 5 ∧ Z.abs (r - b) ≤ 5 ∧ Z.abs (g - b) ≤ 5).
Proof.
  intros cs img pix. split; [simpl; lia|].
  apply (threshold_is_strictly_greater_than_5 cs img). simpl. lia.
Defined.

(** C4: when the first sampled pixel (offsets 0, 1, 2) exceeds the
    threshold, the verdict is Color and the reads are exactly offsets 0, 1
    and 2, whatever follows in the buffer: the bytes after offset 2 are
    arbitrary integers, not even required to be in the range of a byte. *)
Theorem short_circuit_on_first_pixel cs r g b tail :
  3 ≤ cs_n cs →
  5 < Z.abs (r - g) ∨ 5 < Z.abs (r - b) ∨ 5 < Z.abs (g - b) →
  classify {| colorspace := Some cs; samples := r :: g :: b :: tail |}
  = (Returns Color, [EvRead 0; EvRead 1; EvRead 2]).
Proof.
  intros Hn Hd. apply differs_true in Hd.
  unfold classify. cbn [colorspace samples].
  rewrite (proj2 (Z.leb_le 3 (cs_n cs)) Hn).
  change (3 * 10)%nat with 30%nat.
  rewrite py_range_cons by (simpl; lia).
  rewrite (sample_loop_in_bounds _ 0 _ r g b) by done.
  rewrite Hd. reflexivity.
Qed.

Lemma short_circuit_on_first_pixel_witness :
  classify {| colorspace := Some {| cs_n := 4 |};
              samples := [200; 10; 10; 0; -1; 256; 70000] |}
  = (Returns Color, [EvRead 0; EvRead 1; EvRead 2]).
Proof.
  apply (short_circuit_on_first_pixel {| cs_n := 4 |} 200 10 10 [0; -1; 256; 70000]).
  - simpl. lia.
  - left. lia.
Defined.

(** C10: a buffer of fewer than three bytes is never sampled, even with
    three or more channels: the guard [i + 2 < len] fails at every offset,
    the loop ends with [is_color] false without raising and without reading
    a byte, and the page goes to the monochrome list. *)
Theorem short_buffer_is_monochrome cs img p acc :
  3 ≤ cs_n cs →
  (length img < 3)%nat →
  let pix := {| colorspace := Some cs; samples := img |} in
  sample_loop img (py_range 0 (length img) (3 * 10)) = (Returns false, []) ∧
  classify pix = (Returns Monochrome, []) ∧
  classify_page pix p acc = (Returns (acc.1, acc.2 ++ [p]), [EvAppend Monochrome p]).
Proof.
  intros Hn Hlen pix.
  assert (sample_loop img (py_range 0 (length img) (3 * 10)) = (Returns false, [])) as Hl.
  { apply sample_loop_all_skipped. intros i _. lia. }
  assert (classify pix = (Returns Monochrome, [])) as Hc.
  { unfold classify, pix. cbn [colorspace samples].
    rewrite (proj2 (Z.leb_le 3 (cs_n cs)) Hn), Hl. reflexivity. }
  split; [done|]. split; [done|]. unfold classify_page. by rewrite Hc.
Qed.

Lemma short_buffer_is_monochrome_witness :
  let pix := {| colorspace := Some {| cs_n := 3 |}; samples := [255; 0] |} in
  sample_loop [255; 0] (py_range 0 2 (3 * 10)) = (Returns false, []) ∧
  classify pix = (Returns Monochrome, []) ∧
  classify_page pix 1 ([], []) = (Returns ([], [1]), [EvAppend Monochrome 1]).
Proof.
  apply (short_buffer_is_monochrome {| cs_n := 3 |} [255; 0] 1 ([], [])).
  - simpl. lia.
  - simpl. lia.
Defined.






(** A raster of 35 bytes: the walk stops twice, at offsets 0 and 30, and
    the second triple (9, 9, 20) is over the threshold. *)
Example walk_of_35_bytes :
  classify {| colorspace := Some {| cs_n := 3 |};
              samples := replicate 30 7 ++ [9; 9; 20; 1; 2] |}
  = (Returns Color, triple_reads 0 ++ triple_reads 1).
Proof. by vm_compute. Qed.

(** ** The formatter *)

Lemma run_from_snoc k s : run_from s k ++ [s + Z.of_nat k + 1] = run_from s (S k).
Proof.
  revert s. induction k as [|k IH]; intros s.
  - simpl. do 2 f_equal. lia.
  - change (run_from s (S (S k))) with (s :: run_from (s + 1) (S k)).
    rewrite <- (IH (s + 1)).
    change (run_from s (S k)) with (s :: run_from (s + 1) k).
    rewrite <- app_comm_cons. do 3 f_equal. lia.
Qed.

Lemma run_from_head s k : ∃ t, run_from s k = s :: t.
Proof. destruct k; simpl; eauto. Qed.

Lemma last_run_from k a d : List.last (run_from a k) d = a + Z.of_nat k.
Proof.
  revert a d. induction k as [|k IH]; intros a d.
  - simpl. lia.
  - change (run_from a (S k)) with (a :: run_from (a + 1) k).
    destruct (run_from_head (a + 1) k) as [t Ht].
    specialize (IH (a + 1) d). rewrite Ht in *. simpl in *. rewrite IH. lia.
Qed.

Lemma render_run_run_from s k :
  render_run (run_from s k) = render_range s (s + Z.of_nat k).
Proof.
  unfold render_range. destruct k as [|k].
  - simpl. by rewrite bool_decide_eq_true_2 by lia.
  - rewrite bool_decide_eq_false_2 by lia.
    change (run_from s (S k)) with (s :: run_from (s + 1) k).
    destruct k as [|k].
    + simpl. do 3 f_equal. 
    + change (run_from (s + 1) (S k)) with ((s + 1) :: run_from (s + 1 + 1) k).
      unfold render_run. rewrite last_run_from. do 3 f_equal. lia.
Qed.

Lemma group_runs_head x t : ∃ run runs, group_runs (x :: t) = (x :: run) :: runs.
Proof.
  simpl. destruct (group_runs t) as [|[|y run] runs]; eauto.
  case_bool_decide; eauto.
Qed.

(** A run followed by something that does not continue it is a group of
    its own. *)
Lemma group_runs_break k s rest :
  (∀ x t, rest = x :: t → x ≠ s + Z.of_nat k + 1) →
  group_runs (run_from s k ++ rest) = run_from s k :: group_runs rest.
Proof.
  revert s. induction k as [|k IH]; intros s Hbreak.
  - destruct rest as [|x t]; [done|].
    change (run_from s 0 ++ x :: t) with (s :: x :: t).
    change (group_runs (s :: x :: t)) with
      (match group_runs (x :: t) with
       | (y :: run) :: runs =>
           if bool_decide (y = s + 1) then (s :: y :: run) :: runs
           else [s] :: (y :: run) :: runs
       | _ => [[s]]
       end).
    destruct (group_runs_head x t) as (run & runs & ->).
    rewrite bool_decide_eq_false_2; [done|].
    specialize (Hbreak x t eq_refl). lia.
  - change (run_from s (S k) ++ rest) with (s :: (run_from (s + 1) k ++ rest)).
    change (run_from s (S k)) with (s :: run_from (s + 1) k).
    cbn [group_runs]. rewrite IH.
    + destruct (run_from_head (s + 1) k) as [t ->].
      by rewrite bool_decide_eq_true_2.
    + intros x t Hx. specialize (Hbreak x t Hx). lia.
Qed.

Lemma group_runs_run_from s k : group_runs (run_from s k) = [run_from s k].
Proof.
  rewrite <- (app_nil_r (run_from s k)) at 1.
  by rewrite group_runs_break.
Qed.

(** The loop of [format_page_list] never indexes out of range, and what it
    leaves in [(result, start, end)] renders the maximal runs of the list. *)
Lemma format_loop_runs rest : ∀ pre res s k,
  ∃ res' s' e',
    format_loop (pre ++ rest) (seq (length pre) (length rest))
                (res, s, s + Z.of_nat k) = Some (res', s', e') ∧
    res' ++ [render_range s' e']
    = res ++ (render_run <$> group_runs (run_from s k ++ rest)).
Proof.
  induction rest as [|x t IH]; intros pre res s k.
  - exists res, s, (s + Z.of_nat k). split; [done|].
    by rewrite app_nil_r, group_runs_run_from, <- render_run_run_from.
  - cbn [length seq format_loop]. rewrite list_lookup_middle by done.
    cbn [mbind option_bind].
    replace (pre ++ x :: t) with ((pre ++ [x]) ++ t) by by rewrite <- app_assoc.
    replace (S (length pre)) with (length (pre ++ [x]))
      by (rewrite length_app; simpl; lia).
    case_bool_decide as Hx.
    + destruct (IH (pre ++ [x]) res s (S k)) as (res' & s' & e' & Hl & Hr).
      replace (s + Z.of_nat (S k)) with x in Hl by lia.
      exists res', s', e'. split; [done|].
      rewrite Hr, <- run_from_snoc, <- app_assoc. simpl. by rewrite Hx.
    + destruct (IH (pre ++ [x]) (res ++ [render_range s (s + Z.of_nat k)]) x 0%nat)
        as (res' & s' & e' & Hl & Hr).
      replace (x + Z.of_nat 0) with x in Hl by lia.
      exists res', s', e'. split; [done|].
      rewrite Hr, (group_runs_break k s (x :: t)) by (intros x' t' Heq; congruence).
      rewrite fmap_cons, render_run_run_from, <- app_assoc. done.
Qed.

Lemma py_sort_nil : py_sort [] = [].
Proof. reflexivity. Qed.

Lemma py_sort_nonempty l : l ≠ [] → ∃ x t, py_sort l = x :: t.
Proof.
  intros Hl. destruct (py_sort l) as [|x t] eqn:E; [|eauto].
  pose proof (py_sort_Permutation l) as Hp. rewrite E in Hp.
  by apply Permutation_nil_l in Hp.
Qed.

(** [format_page_list] always returns: the text is the specification's, and
    the list object holds the sorted list afterwards. *)
Lemma format_page_list_eq l :
  format_page_list l = Some (spec_format l, py_sort l).
Proof.
  unfold format_page_list, spec_format. case_bool_decide as Hl.
  - subst l. reflexivity.
  - cbv zeta. destruct (py_sort_nonempty l Hl) as (x & t & ->).
    cbn [lookup list_lookup mbind option_bind].
    rewrite py_range_step1. cbn [length].
    replace (S (length t) - 1)%nat with (length t) by lia.
    destruct (format_loop_runs t [x] [] x 0%nat) as (res' & s' & e' & Hloop & Hres).
    replace (x + Z.of_nat 0) with x in Hloop by lia.
    cbn [length app] in Hloop. rewrite Hloop. cbn [mbind option_bind].
    rewrite Hres. reflexivity.
Qed.

Lemma group_runs_no_empty_head t runs : group_runs t ≠ [] :: runs.
Proof.
  destruct t as [|y t]; [done|].
  destruct (group_runs_head y t) as (r & rs & ->). done.
Qed.

Lemma group_runs_concat l : mjoin (group_runs l) = l.
Proof.
  induction l as [|x t IH]; [done|]. cbn [group_runs].
  destruct (group_runs t) as [|[|y run] runs] eqn:E.
  - simpl in *. by rewrite <- IH.
  - by apply group_runs_no_empty_head in E.
  - case_bool_decide; rewrite <- IH; reflexivity.
Qed.

Lemma is_run_cons x y run : is_run (y :: run) → y = x + 1 → is_run (x :: y :: run).
Proof.
  intros (s & k & Hrun) ->. exists x, (S k).
  destruct (run_from_head s k) as [t Ht]. rewrite Ht in Hrun.
  injection Hrun as <- ->. simpl. by rewrite Ht.
Qed.

Lemma group_runs_is_run l : Forall is_run (group_runs l).
Proof.
  induction l as [|x t IH]; [constructor|]. cbn [group_runs].
  destruct (group_runs t) as [|[|y run] runs] eqn:E.
  - repeat constructor. by exists x, 0%nat.
  - by apply group_runs_no_empty_head in E.
  - inversion IH as [|? ? Hrun Hruns]; subst. case_bool_decide as Hy.
    + constructor; [|done]. by apply is_run_cons.
    + constructor; [by exists x, 0%nat|]. by constructor.
Qed.

Lemma group_runs_maximal l : maximal (group_runs l).
Proof.
  induction l as [|x t IH]; [done|]. cbn [group_runs].
  destruct (group_runs t) as [|[|y run] runs] eqn:E; [done| |].
  - by apply group_runs_no_empty_head in E.
  - case_bool_decide as Hy.
    + destruct runs as [|r2 runs]; [done|].
      destruct IH as [Hbreak Hmax]. split; [|done].
      intros a b Ha Hb. apply Hbreak; [|done].
      by rewrite last_cons_cons in Ha.
    + split; [|done]. intros a b [= <-] [= <-]. done.
Qed.

(** ** Claims about the formatter *)

(** C5: in any input order, [format_page_list] returns the join with
    [", "] of the rendered groups of the ascending rearrangement of its
    input, where the groups are the maximal runs of consecutive integers, a
    run of one number renders as that number and a longer run as
    ["first-last"]; the empty input gives the empty string. *)
Theorem format_page_list_groups_sorted_runs (page_list : list Z) :
  let runs := group_runs (py_sort page_list) in
  fst <$> format_page_list page_list = Some (join ", " (render_run <$> runs)) ∧
  Sorted Z.le (mjoin runs) ∧ mjoin runs ≡ₚ page_list ∧
  Forall is_run runs ∧ maximal runs ∧
  (∀ s k, render_run (run_from s k)
          = if k is O then str s else str s +:+ "-" +:+ str (s + Z.of_nat k)) ∧
  fst <$> format_page_list [] = Some EmptyString ∧
  fst <$> format_page_list [8; 1; 7; 2; 5; 3] = Some "1-3, 5, 7-8"%string.
Proof.
  intros runs. subst runs. rewrite group_runs_concat.
  split; [by rewrite format_page_list_eq|].
  split; [apply py_sort_Sorted|]. split; [apply py_sort_Permutation|].
  split; [apply group_runs_is_run|]. split; [apply group_runs_maximal|].
  split; [|split].
  - intros s k. rewrite render_run_run_from. unfold render_range.
    destruct k; [by rewrite bool_decide_eq_true_2 by lia|].
    by rewrite bool_decide_eq_false_2 by lia.
  - by vm_compute.
  - by vm_compute.
Qed.



(** ** The document scan *)

Lemma classify_eq pix : classify pix = (Returns (verdict pix), (classify pix).2).
Proof. rewrite <- classify_fst. by destruct (classify pix). Qed.

Lemma classify_page_eq pix p acc :
  classify_page pix p acc
  = (Returns (if decide (verdict pix = Color) then (acc.1 ++ [p], acc.2)
              else (acc.1, acc.2 ++ [p])),
     (classify pix).2 ++ [EvAppend (verdict pix) p]).
Proof.
  unfold classify_page. apply (bind_eq _ _ _ _ _ _ (classify_eq pix)).
  unfold record_page. by destruct (verdict pix).
Qed.

Lemma page_number_seq n : page_number <$> seq 0 n = seqZ 1 (Z.of_nat n).
Proof.
  unfold seqZ. rewrite Nat2Z.id. apply list_fmap_ext.
  intros _ i _. unfold page_number. lia.
Qed.

Lemma render_ok (doc : list Page) i pix :
  doc !! i = Some (Returns pix) → render doc i = (Returns pix, [EvRender i]).
Proof. intros H. unfold render. by rewrite H. Qed.

Lemma render_broken (doc : list Page) i e :
  doc !! i = Some (Raises e) → render doc i = (Raises e, [EvRender i]).
Proof. intros H. unfold render. by rewrite H. Qed.

Section page_loop.

Context (prelude : nat → M unit) (doc : list Page).

Lemma prelude_eq i :
  (prelude i).1 = Returns tt → prelude i = (Returns tt, (prelude i).2).
Proof. apply outcome_eta. Qed.

(** The loop over pages that all render: it does not raise, files every
    page number under its verdict in ascending order, and its trace is the
    concatenation of the per-page traces. *)
Lemma page_loop_success page_nums :
  (∀ i, (prelude i).1 = Returns tt) →
  (∀ i, i ∈ page_nums → ∃ pix, doc !! i = Some (Returns pix)) →
  ∀ acc,
    page_loop prelude doc page_nums acc
    = (Returns (acc.1 ++ color_pages_of doc page_nums,
                acc.2 ++ bw_pages_of doc page_nums),
       mjoin (page_trace prelude doc <$> page_nums)).
Proof.
  intros Hpre. unfold color_pages_of, bw_pages_of.
  induction page_nums as [|i rest IH]; intros Hdoc acc.
  - simpl. rewrite !app_nil_r. by destruct acc.
  - destruct (Hdoc i) as [pix Hpix]; [left|].
    cbn [page_loop fmap list_fmap mjoin].
    unfold page_trace at 1. rewrite Hpix.
    rewrite (bind_Returns _ _ _ _ (prelude_eq i (Hpre i))).
    rewrite (bind_Returns _ _ _ _ (render_ok doc i pix Hpix)).
    rewrite (bind_Returns _ _ _ _ (classify_page_eq pix (Z.of_nat i + 1) acc)).
    rewrite IH by (intros j Hj; apply Hdoc; by right).
    assert (page_verdict doc i = verdict pix) as Hv
      by (unfold page_verdict; by rewrite Hpix).
    rewrite !filter_cons. cbv beta. rewrite Hv.
    cbn [fst snd]. fold (page_number i).
    destruct (decide (verdict pix = Color)) as [Hc|Hc].
    + rewrite decide_False by tauto.
      cbn [fst snd fmap list_fmap mjoin list_join]. rewrite <- !app_assoc. reflexivity.
    + rewrite decide_True by done.
      cbn [fst snd fmap list_fmap mjoin list_join]. rewrite <- !app_assoc. reflexivity.
Qed.

(** A loop that comes across a page that does not render raises. *)
Lemma page_loop_failure page_nums acc i e :
  i ∈ page_nums → doc !! i = Some (Raises e) →
  ∃ e', (page_loop prelude doc page_nums acc).1 = Raises e'.
Proof.
  intros Hi Hbroken. revert acc.
  induction page_nums as [|j rest IH]; intros acc; [by apply elem_of_nil in Hi|].
  cbn [page_loop]. rewrite bind_fst.
  destruct (prelude j).1 as [[]|e1]; [|by eexists].
  rewrite bind_fst.
  destruct (render doc j) as [[pix|e2] tr] eqn:Hr; cbn [fst]; [|by eexists].
  rewrite bind_fst, classify_page_eq. cbn [fst].
  apply IH. apply elem_of_cons in Hi as [->|Hi]; [|done].
  rewrite (render_broken _ _ _ Hbroken) in Hr. discriminate Hr.
Qed.

Lemma page_loop_Forall (P : Event → Prop) page_nums acc :
  (∀ i, Forall P (prelude i).2) →
  (∀ i, P (EvRender i)) → (∀ i, P (EvRead i)) → (∀ c p, P (EvAppend c p)) →
  Forall P (page_loop prelude doc page_nums acc).2.
Proof.
  intros Hpre Hrender Hread Happend. revert acc.
  induction page_nums as [|i rest IH]; intros acc; [constructor|].
  cbn [page_loop]. apply bind_trace_Forall; [done|]. intros _.
  apply bind_trace_Forall.
  { unfold render. destruct (doc !! i) as [page|]; by repeat constructor. }
  intros pix. apply bind_trace_Forall; [|done].
  rewrite classify_page_eq. simpl. apply Forall_app. split.
  - eapply Forall_impl; [apply classify_reads|]. intros [] He; by try apply Hread.
  - by repeat constructor.
Qed.

Lemma page_loop_page_events page_nums acc :
  (∀ i, Forall page_event (prelude i).2) →
  Forall page_event (page_loop prelude doc page_nums acc).2.
Proof. intros H. by apply page_loop_Forall. Qed.

(** The loop stops at the first page that fails to render: the pages
    before it are processed in full, then the prelude and the failing render
    of that page are the last things that happen, and the exception of the
    render is the one that leaves the loop. *)
Lemma page_loop_abort before i0 after acc e :
  (∀ i, (prelude i).1 = Returns tt) →
  (∀ i, i ∈ before → ∃ pix, doc !! i = Some (Returns pix)) →
  doc !! i0 = Some (Raises e) →
  page_loop prelude doc (before ++ i0 :: after) acc
  = (Raises e, mjoin (page_trace prelude doc <$> before)
               ++ (prelude i0).2 ++ [EvRender i0]).
Proof.
  intros Hpre Hdoc Hbroken. revert acc.
  induction before as [|i rest IH]; intros acc.
  - cbn [app page_loop fmap list_fmap mjoin list_join].
    rewrite (bind_Returns _ _ _ _ (prelude_eq i0 (Hpre i0))).
    rewrite (bind_Raises _ _ _ _ (render_broken doc i0 e Hbroken)).
    reflexivity.
  - destruct (Hdoc i) as [pix Hpix]; [left|].
    rewrite <- app_comm_cons, fmap_cons, mjoin_cons. cbn [page_loop].
    unfold page_trace at 1. rewrite Hpix.
    rewrite (bind_Returns _ _ _ _ (prelude_eq i (Hpre i))).
    rewrite (bind_Returns _ _ _ _ (render_ok doc i pix Hpix)).
    rewrite (bind_Returns _ _ _ _ (classify_page_eq pix (Z.of_nat i + 1) acc)).
    rewrite IH by (intros j Hj; apply Hdoc; by right).
    cbn [fst snd]. fold (page_number i). by rewrite <- !app_assoc.
Qed.

End page_loop.

Lemma partitions_of_doc doc :
  partitions (color_pages_of doc (seq 0 (length doc)))
             (bw_pages_of doc (seq 0 (length doc))) (length doc).
Proof.
  assert (color_pages_of doc (seq 0 (length doc))
          ++ bw_pages_of doc (seq 0 (length doc))
          ≡ₚ seqZ 1 (Z.of_nat (length doc))) as Hperm.
  { unfold color_pages_of, bw_pages_of.
    by rewrite <- fmap_app, filter_app_complement, page_number_seq. }
  assert (NoDup (color_pages_of doc (seq 0 (length doc))
                 ++ bw_pages_of doc (seq 0 (length doc)))) as Hnd.
  { rewrite Hperm. apply NoDup_seqZ. }
  split; [done|]. split; [done|]. split; [|split].
  - intros p Hc Hb. apply NoDup_app in Hnd as (_ & Hdisj & _). by apply (Hdisj p).
  - intros p. rewrite <- elem_of_app, Hperm, elem_of_seqZ. lia.
  - rewrite <- length_app, Hperm, length_seqZ. lia.
Qed.

Lemma all_pages_render (doc : list Page) :
  Forall renders doc →
  ∀ i, i ∈ py_range 0 (length doc) 1 → ∃ pix, doc !! i = Some (Returns pix).
Proof.
  intros Hall i Hi. rewrite py_range_step1 in Hi.
  apply elem_of_seq in Hi.
  destruct (lookup_lt_is_Some_2 doc i) as [page Hpage]; [lia|].
  destruct (Forall_lookup_1 _ _ _ _ Hall Hpage) as [pix ->]. eauto.
Qed.

Lemma seq_split_at n i0 :
  (i0 < n)%nat → seq 0 n = seq 0 i0 ++ i0 :: seq (S i0) (n - S i0).
Proof.
  intros H. replace n with (i0 + S (n - S i0))%nat at 1 by lia.
  by rewrite seq_app.
Qed.

(** Every document renders in full or has a first page that does not. *)
Lemma doc_renders_or_broken (doc : list Page) :
  Forall renders doc ∨ ∃ i0 e, first_broken doc i0 e.
Proof.
  induction doc as [|[pix|e] doc IH].
  - left. constructor.
  - destruct IH as [H|(i0 & e & Hb & Hlt)].
    + left. constructor; [by eexists|done].
    + right. exists (S i0), e. split; [done|].
      intros [|j] Hj; [by exists pix|]. apply Hlt. lia.
  - right. exists 0%nat, e. split; [done|]. lia.
Qed.

(** *** The body of [analyze_pdf] in each of its runs *)

Lemma app_body_success file doc :
  App.write file = Returns tt → App.document file = Returns doc →
  Forall renders doc → App.unlink file = Returns tt →
  App.analyze_pdf_body file
  = (Returns (color_pages_of doc (seq 0 (length doc)),
              bw_pages_of doc (seq 0 (length doc)), Z.of_nat (length doc)),
     [EvTempWrite; EvOpen; EvProgressInit]
     ++ mjoin (page_trace (App.update_progress (length doc)) doc
               <$> seq 0 (length doc))
     ++ [EvClose; EvUnlink]).
Proof.
  intros Hw Hd Hall Hu. unfold App.analyze_pdf_body.
  rewrite Hw, Hd, Hu. unfold io, open_doc.
  rewrite (bind_Returns (Returns tt, [EvTempWrite]) _ tt [EvTempWrite]) by done.
  rewrite (bind_Returns (Returns doc, [EvOpen]) _ doc [EvOpen]) by done.
  rewrite (bind_Returns (emit EvProgressInit) _ tt [EvProgressInit]) by done.
  rewrite page_loop_success; [|done|by apply all_pages_render].
  rewrite py_range_step1, Nat.sub_0_r.
  unfold bind, emit, ret. cbn [fst snd app]. by rewrite ?app_nil_r.
Qed.

Lemma app_body_unlink_failure file doc e :
  App.write file = Returns tt → App.document file = Returns doc →
  Forall renders doc → App.unlink file = Raises e →
  App.analyze_pdf_body file
  = (Raises e,
     [EvTempWrite; EvOpen; EvProgressInit]
     ++ mjoin (page_trace (App.update_progress (length doc)) doc
               <$> seq 0 (length doc))
     ++ [EvClose; EvUnlink]).
Proof.
  intros Hw Hd Hall Hu. unfold App.analyze_pdf_body.
  rewrite Hw, Hd, Hu. unfold io, open_doc.
  rewrite (bind_Returns (Returns tt, [EvTempWrite]) _ tt [EvTempWrite]) by done.
  rewrite (bind_Returns (Returns doc, [EvOpen]) _ doc [EvOpen]) by done.
  rewrite (bind_Returns (emit EvProgressInit) _ tt [EvProgressInit]) by done.
  rewrite page_loop_success; [|done|by apply all_pages_render].
  rewrite py_range_step1, Nat.sub_0_r.
  unfold bind, emit, ret. cbn [fst snd app]. by rewrite ?app_nil_r.
Qed.

Lemma app_body_write_failure file e :
  App.write file = Raises e →
  App.analyze_pdf_body file = (Raises e, [EvTempWrite]).
Proof. intros Hw. unfold App.analyze_pdf_body. by rewrite Hw. Qed.

Lemma app_body_open_failure file e :
  App.write file = Returns tt → App.document file = Raises e →
  App.analyze_pdf_body file = (Raises e, [EvTempWrite; EvOpen]).
Proof. intros Hw Hd. unfold App.analyze_pdf_body. by rewrite Hw, Hd. Qed.

(** The body stops at the first page that does not render: the pages
    before it have been processed, the pages after it are never loaded and
    the document is not closed. *)
Lemma app_body_aborts file (doc : list Page) i0 e :
  App.write file = Returns tt → App.document file = Returns doc →
  first_broken doc i0 e →
  App.analyze_pdf_body file
  = (Raises e,
     [EvTempWrite; EvOpen; EvProgressInit]
     ++ mjoin (page_trace (App.update_progress (length doc)) doc <$> seq 0 i0)
     ++ [EvProgress (page_number i0) (Z.of_nat (length doc)); EvRender i0]).
Proof.
  intros Hw Hd [Hbroken Hbefore].
  unfold App.analyze_pdf_body. rewrite Hw, Hd. unfold io, open_doc.
  rewrite (bind_Returns (Returns tt, [EvTempWrite]) _ tt [EvTempWrite]) by done.
  rewrite (bind_Returns (Returns doc, [EvOpen]) _ doc [EvOpen]) by done.
  rewrite (bind_Returns (emit EvProgressInit) _ tt [EvProgressInit]) by done.
  rewrite py_range_step1, Nat.sub_0_r.
  rewrite (seq_split_at (length doc) i0) by (by apply lookup_lt_Some in Hbroken).
  erewrite bind_Raises; last first.
  { apply page_loop_abort; [done| |done].
    intros i Hi. apply Hbefore. apply elem_of_seq in Hi. lia. }
  cbn. by rewrite <- ?app_assoc.
Qed.

Lemma desktop_body_success doc :
  Forall renders doc →
  Desktop.analyze_pdf_body (Returns doc)
  = (Returns (color_pages_of doc (seq 0 (length doc)),
              bw_pages_of doc (seq 0 (length doc))),
     [EvOpen]
     ++ mjoin (page_trace (λ _, ret tt) doc <$> seq 0 (length doc))
     ++ [EvClose]).
Proof.
  intros Hall. unfold Desktop.analyze_pdf_body, open_doc.
  rewrite (bind_Returns (Returns doc, [EvOpen]) _ doc [EvOpen]) by done.
  rewrite page_loop_success; [|done|by apply all_pages_render].
  rewrite py_range_step1, Nat.sub_0_r.
  unfold bind, emit, ret. cbn [fst snd app]. by rewrite ?app_nil_r.
Qed.

Lemma desktop_body_aborts (doc : list Page) i0 e :
  first_broken doc i0 e →
  Desktop.analyze_pdf_body (Returns doc)
  = (Raises e,
     [EvOpen] ++ mjoin (page_trace (λ _, ret tt) doc <$> seq 0 i0)
     ++ [EvRender i0]).
Proof.
  intros [Hbroken Hbefore].
  unfold Desktop.analyze_pdf_body, open_doc.
  rewrite (bind_Returns (Returns doc, [EvOpen]) _ doc [EvOpen]) by done.
  rewrite py_range_step1, Nat.sub_0_r.
  rewrite (seq_split_at (length doc) i0) by (by apply lookup_lt_Some in Hbroken).
  erewrite bind_Raises; last first.
  { apply page_loop_abort; [done| |done].
    intros i Hi. apply Hbefore. apply elem_of_seq in Hi. lia. }
  cbn. by rewrite <- ?app_assoc.
Qed.

Lemma app_failure_body file e :
  app_failure file e → (App.analyze_pdf_body file).1 = Raises e.
Proof.
  intros [Hw|(Hw & [Hd|(doc & Hd & [(i0 & Hb)|(Hall & Hu)])])].
  - by rewrite (app_body_write_failure file e Hw).
  - by rewrite (app_body_open_failure file e Hw Hd).
  - by rewrite (app_body_aborts file doc i0 e Hw Hd Hb).
  - by rewrite (app_body_unlink_failure file doc e Hw Hd Hall Hu).
Qed.

Lemma desktop_failure_body path e :
  desktop_failure path e → (Desktop.analyze_pdf_body path).1 = Raises e.
Proof.
  intros [->|(doc & i0 & -> & Hb)]; [done|].
  by rewrite (desktop_body_aborts doc i0 e Hb).
Qed.

(** Every upload either meets a first failure or is stored, opened,
    rendered in full and removed. *)
Lemma app_cases file :
  (∃ e, app_failure file e) ∨
  ∃ doc, App.write file = Returns tt ∧ App.document file = Returns doc ∧
         Forall renders doc ∧ App.unlink file = Returns tt.
Proof.
  unfold app_failure.
  destruct (App.write file) as [[]|e] eqn:Hw; [|left; exists e; by left].
  destruct (App.document file) as [doc|e] eqn:Hd;
    [|left; exists e; right; split; [done|by left]].
  destruct (doc_renders_or_broken doc) as [Hall|(i0 & e & Hb)].
  - destruct (App.unlink file) as [[]|e] eqn:Hu.
    + right. by exists doc.
    + left. exists e. right. split; [done|]. right. exists doc.
      split; [done|]. by right.
  - left. exists e. right. split; [done|]. right. exists doc.
    split; [done|]. left. by exists i0.
Qed.

Lemma desktop_cases path :
  (∃ e, desktop_failure path e) ∨ ∃ doc, path = Returns doc ∧ Forall renders doc.
Proof.
  unfold desktop_failure. destruct path as [doc|e]; [|left; exists e; by left].
  destruct (doc_renders_or_broken doc) as [Hall|(i0 & e & Hb)].
  - right. by exists doc.
  - left. exists e. right. by exists doc, i0.
Qed.

(** *** [analyze_pdf] in each of its runs *)

Lemma app_analyze_failure file :
  app_failure file Exception →
  App.analyze_pdf file
  = (Returns ([], [], 0), (App.analyze_pdf_body file).2 ++ [EvError]).
Proof.
  intros H. unfold App.analyze_pdf. apply try_except_caught.
  by apply app_failure_body.
Qed.

Lemma app_analyze_interrupted file :
  app_failure file OtherBaseException →
  App.analyze_pdf file
  = (Raises OtherBaseException, (App.analyze_pdf_body file).2).
Proof.
  intros H. apply app_failure_body in H. unfold App.analyze_pdf.
  rewrite try_except_passes by done. by apply outcome_eta.
Qed.

Lemma app_analyze_success file doc :
  App.write file = Returns tt → App.document file = Returns doc →
  Forall renders doc → App.unlink file = Returns tt →
  App.analyze_pdf file
  = (Returns (color_pages_of doc (seq 0 (length doc)),
              bw_pages_of doc (seq 0 (length doc)), Z.of_nat (length doc)),
     [EvTempWrite; EvOpen; EvProgressInit]
     ++ mjoin (page_trace (App.update_progress (length doc)) doc
               <$> seq 0 (length doc))
     ++ [EvClose; EvUnlink]).
Proof.
  intros Hw Hd Hall Hu.
  pose proof (app_body_success file doc Hw Hd Hall Hu) as Hbody.
  unfold App.analyze_pdf.
  by rewrite (try_except_ok _ _ _ (f_equal fst Hbody)).
Qed.

Lemma desktop_analyze_failure path :
  desktop_failure path Exception →
  Desktop.analyze_pdf path
  = (Returns ([], []), (Desktop.analyze_pdf_body path).2 ++ [EvError]).
Proof.
  intros H. unfold Desktop.analyze_pdf. apply try_except_caught.
  by apply desktop_failure_body.
Qed.

Lemma desktop_analyze_interrupted path :
  desktop_failure path OtherBaseException →
  Desktop.analyze_pdf path
  = (Raises OtherBaseException, (Desktop.analyze_pdf_body path).2).
Proof.
  intros H. apply desktop_failure_body in H. unfold Desktop.analyze_pdf.
  rewrite try_except_passes by done. by apply outcome_eta.
Qed.

Lemma desktop_analyze_success doc :
  Forall renders doc →
  Desktop.analyze_pdf (Returns doc)
  = (Returns (color_pages_of doc (seq 0 (length doc)),
              bw_pages_of doc (seq 0 (length doc))),
     [EvOpen]
     ++ mjoin (page_trace (λ _, ret tt) doc <$> seq 0 (length doc))
     ++ [EvClose]).
Proof.
  intros Hall. pose proof (desktop_body_success doc Hall) as Hbody.
  unfold Desktop.analyze_pdf.
  by rewrite (try_except_ok _ _ _ (f_equal fst Hbody)).
Qed.

(** A scan that meets a page it cannot render, with an instance of
    [Exception], stops there: the pages before it have been processed, the
    pages after it are never loaded, the document is not closed, and the
    error report ends the trace. *)
Lemma desktop_scan_aborts (doc : list Page) i0 :
  first_broken doc i0 Exception →
  Desktop.analyze_pdf (Returns doc)
  = (Returns ([], []),
     [EvOpen] ++ mjoin (page_trace (λ _, ret tt) doc <$> seq 0 i0)
     ++ [EvRender i0; EvError]).
Proof.
  intros Hb. rewrite desktop_analyze_failure by (right; by exists doc, i0).
  rewrite (desktop_body_aborts doc i0 _ Hb). cbn [snd].
  by rewrite <- !app_assoc.
Qed.

Lemma app_scan_aborts file (doc : list Page) i0 :
  App.write file = Returns tt → App.document file = Returns doc →
  first_broken doc i0 Exception →
  App.analyze_pdf file
  = (Returns ([], [], 0),
     [EvTempWrite; EvOpen; EvProgressInit]
     ++ mjoin (page_trace (App.update_progress (length doc)) doc <$> seq 0 i0)
     ++ [EvProgress (page_number i0) (Z.of_nat (length doc)); EvRender i0; EvError]).
Proof.
  intros Hw Hd Hb.
  rewrite app_analyze_failure
    by (right; split; [done|]; right; exists doc; split; [done|]; left; by exists i0).
  rewrite (app_body_aborts file doc i0 _ Hw Hd Hb). cbn [snd].
  by rewrite <- !app_assoc.
Qed.

(** The trace of [analyze_pdf] is the trace of its body, followed by the
    error report when the body raised an instance of [Exception]. *)
Lemma app_analyze_trace file :
  (App.analyze_pdf file).2
  = (App.analyze_pdf_body file).2
    ++ match (App.analyze_pdf_body file).1 with
       | Raises Exception => [EvError]
       | _ => []
       end.
Proof.
  unfold App.analyze_pdf, try_except.
  destruct (App.analyze_pdf_body file).1 as [r|[]]; cbn [snd];
    by rewrite ?app_nil_r.
Qed.

Lemma desktop_analyze_trace path :
  (Desktop.analyze_pdf path).2
  = (Desktop.analyze_pdf_body path).2
    ++ match (Desktop.analyze_pdf_body path).1 with
       | Raises Exception => [EvError]
       | _ => []
       end.
Proof.
  unfold Desktop.analyze_pdf, try_except.
  destruct (Desktop.analyze_pdf_body path).1 as [r|[]]; cbn [snd];
    by rewrite ?app_nil_r.
Qed.

Lemma app_body_Forall (P : Event → Prop) file :
  P EvTempWrite → P EvOpen → P EvProgressInit → (∀ n d, P (EvProgress n d)) →
  (∀ i, P (EvRender i)) → (∀ i, P (EvRead i)) → (∀ c p, P (EvAppend c p)) →
  P EvClose → P EvUnlink →
  Forall P (App.analyze_pdf_body file).2.
Proof.
  intros. unfold App.analyze_pdf_body.
  apply bind_trace_Forall; [by repeat constructor|]. intros _.
  apply bind_trace_Forall; [by repeat constructor|]. intros doc.
  apply bind_trace_Forall; [by repeat constructor|]. intros _.
  apply bind_trace_Forall.
  { apply page_loop_Forall; try done; intros i; by repeat constructor. }
  intros pages. apply bind_trace_Forall; [by repeat constructor|]. intros _.
  apply bind_trace_Forall; [by repeat constructor|]. intros _. constructor.
Qed.

Lemma desktop_body_Forall (P : Event → Prop) path :
  P EvOpen → (∀ i, P (EvRender i)) → (∀ i, P (EvRead i)) →
  (∀ c p, P (EvAppend c p)) → P EvClose →
  Forall P (Desktop.analyze_pdf_body path).2.
Proof.
  intros. unfold Desktop.analyze_pdf_body.
  apply bind_trace_Forall; [by repeat constructor|]. intros doc.
  apply bind_trace_Forall.
  { apply page_loop_Forall; try done; intros i; by repeat constructor. }
  intros pages. apply bind_trace_Forall; [by repeat constructor|]. intros _.
  constructor.
Qed.

(** The error report is issued by the handler only. *)
Lemma app_body_not_error file : Forall not_error (App.analyze_pdf_body file).2.
Proof. by apply app_body_Forall. Qed.

Lemma desktop_body_not_error path : Forall not_error (Desktop.analyze_pdf_body path).2.
Proof. by apply desktop_body_Forall. Qed.

Local Instance page_number_inj : Inj (=) (=) page_number.
Proof. intros i j. unfold page_number. lia. Qed.

Lemma elem_of_color_pages_of (doc : list Page) i pix :
  doc !! i = Some (Returns pix) →
  page_number i ∈ color_pages_of doc (seq 0 (length doc)) ↔ verdict pix = Color.
Proof.
  intros Hpix. unfold color_pages_of.
  rewrite (list_elem_of_fmap_inj page_number), list_elem_of_filter, elem_of_seq.
  unfold page_verdict. rewrite Hpix. apply lookup_lt_Some in Hpix.
  intuition lia.
Qed.

Lemma elem_of_bw_pages_of (doc : list Page) i pix :
  doc !! i = Some (Returns pix) →
  page_number i ∈ bw_pages_of doc (seq 0 (length doc)) ↔ verdict pix = Monochrome.
Proof.
  intros Hpix. unfold bw_pages_of.
  rewrite (list_elem_of_fmap_inj page_number), list_elem_of_filter, elem_of_seq.
  unfold page_verdict. rewrite Hpix. apply lookup_lt_Some in Hpix.
  destruct (verdict pix); intuition (try lia; try done).
Qed.

Lemma filter_progress_reads tr : Forall is_read tr → filter is_progress tr = [].
Proof.
  induction 1 as [|e tr He _ IH]; [done|].
  rewrite filter_cons, IH. by destruct e.
Qed.

Lemma filter_progress_none tr :
  Forall (λ e, ¬ is_progress e) tr → filter is_progress tr = [].
Proof.
  induction 1 as [|e tr He _ IH]; [done|].
  rewrite filter_cons, IH. by rewrite decide_False.
Qed.

Lemma app_page_trace total (doc : list Page) i pix :
  doc !! i = Some (Returns pix) →
  page_trace (App.update_progress total) doc i
  = EvProgress (page_number i) (Z.of_nat total) :: EvRender i
    :: (classify pix).2 ++ [EvAppend (verdict pix) (page_number i)].
Proof. intros H. unfold page_trace. by rewrite H. Qed.

Lemma filter_progress_pages total (doc : list Page) page_nums :
  (∀ i, i ∈ page_nums → ∃ pix, doc !! i = Some (Returns pix)) →
  filter is_progress (mjoin (page_trace (App.update_progress total) doc <$> page_nums))
  = (λ i, EvProgress (page_number i) (Z.of_nat total)) <$> page_nums.
Proof.
  induction page_nums as [|i rest IH]; intros Hdoc; [done|].
  destruct (Hdoc i) as [pix Hpix]; [left|].
  rewrite fmap_cons, mjoin_cons.
  rewrite filter_app, IH by (intros j Hj; apply Hdoc; by right).
  rewrite (app_page_trace _ _ _ _ Hpix).
  rewrite !filter_cons. cbn [is_progress decide is_progress_dec].
  rewrite filter_app, (filter_progress_reads _ (classify_reads pix)).
  reflexivity.
Qed.

(** The desktop front end has no progress bar. *)
Lemma desktop_no_progress path :
  filter is_progress (Desktop.analyze_pdf path).2 = [].
Proof.
  apply filter_progress_none. rewrite desktop_analyze_trace.
  apply Forall_app. split.
  - apply desktop_body_Forall; repeat intro; by simpl in *.
  - destruct (Desktop.analyze_pdf_body path).1 as [r|[]]; repeat constructor.
    by intros [].
Qed.

(** ** Claims about the document scan *)

(** C6: when the document opens and every page renders, both front ends
    return the same two lists, and these partition the page numbers
    1 .. totalPages: together they are a rearrangement of 1, ..., totalPages
    without repetition, no page number is in both, and their lengths add up
    to totalPages; page index [i] contributes page number [i + 1] to the
    colour list exactly when its verdict is Color and to the monochrome list
    exactly when it is Monochrome. *)
Theorem scan_partitions_pages (doc : list Page) :
  Forall renders doc →
  ∃ color_pages bw_pages,
    partitions color_pages bw_pages (length doc) ∧
    (∀ i pix, doc !! i = Some (Returns pix) →
       (page_number i ∈ color_pages ↔ verdict pix = Color) ∧
       (page_number i ∈ bw_pages ↔ verdict pix = Monochrome)) ∧
    (∀ file,
       App.write file = Returns tt → App.document file = Returns doc →
       App.unlink file = Returns tt →
       (App.analyze_pdf file).1
       = Returns (color_pages, bw_pages, Z.of_nat (length doc)) ∧
       Forall not_error (App.analyze_pdf file).2) ∧
    (Desktop.analyze_pdf (Returns doc)).1 = Returns (color_pages, bw_pages) ∧
    Forall not_error (Desktop.analyze_pdf (Returns doc)).2.
Proof.
  intros Hall.
  exists (color_pages_of doc (seq 0 (length doc))),
         (bw_pages_of doc (seq 0 (length doc))).
  split; [apply partitions_of_doc|]. split.
  { intros i pix Hpix. split.
    - by apply elem_of_color_pages_of.
    - by apply elem_of_bw_pages_of. }
  split.
  - intros file Hw Hd Hu.
    pose proof (app_body_success file doc Hw Hd Hall Hu) as Hbody.
    unfold App.analyze_pdf.
    rewrite (try_except_ok _ _ _ (f_equal fst Hbody)).
    split; [by rewrite Hbody|apply app_body_not_error].
  - pose proof (desktop_body_success doc Hall) as Hbody.
    unfold Desktop.analyze_pdf.
    rewrite (try_except_ok _ _ _ (f_equal fst Hbody)).
    split; [by rewrite Hbody|apply desktop_body_not_error].
Qed.

Lemma scan_partitions_pages_witness :
  ∃ color_pages bw_pages,
    partitions color_pages bw_pages (length three_pages) ∧
    (∀ i pix, three_pages !! i = Some (Returns pix) →
       (page_number i ∈ color_pages ↔ verdict pix = Color) ∧
       (page_number i ∈ bw_pages ↔ verdict pix = Monochrome)) ∧
    (∀ file,
       App.write file = Returns tt → App.document file = Returns three_pages →
       App.unlink file = Returns tt →
       (App.analyze_pdf file).1
       = Returns (color_pages, bw_pages, Z.of_nat (length three_pages)) ∧
       Forall not_error (App.analyze_pdf file).2) ∧
    (Desktop.analyze_pdf (Returns three_pages)).1 = Returns (color_pages, bw_pages) ∧
    Forall not_error (Desktop.analyze_pdf (Returns three_pages)).2.
Proof.
  apply (scan_partitions_pages three_pages).
  unfold three_pages. repeat constructor; eexists; reflexivity.
Defined.

(** C7: when [fitz.open] fails, or a page fails to render, with an
    instance of [Exception] (which is what PyMuPDF raises for a corrupt
    file, an unreadable path or an unsupported format), the scan stops on
    the spot: the pages before the failing one have been classified and
    recorded, the failing page is the last one loaded, no later page is
    touched and the document is not closed; the failure is reported once,
    as the last event; and [analyze_pdf] returns normally with the empty
    result (no colour pages, no monochrome pages, and totalPages 0 where it
    is returned), so nothing of what was recorded before the failure is
    returned.  The hypothesis on the temporary copy places the failure at
    the opening or at a page. *)
Theorem failed_scan_returns_empty (file : App.Upload) :
  App.write file = Returns tt →
  (App.document file = Raises Exception →
     App.analyze_pdf file
     = (Returns ([], [], 0), [EvTempWrite; EvOpen; EvError]) ∧
     Desktop.analyze_pdf (App.document file)
     = (Returns ([], []), [EvOpen; EvError])) ∧
  (∀ doc i0,
     App.document file = Returns doc → first_broken doc i0 Exception →
     App.analyze_pdf file
     = (Returns ([], [], 0),
        [EvTempWrite; EvOpen; EvProgressInit]
        ++ mjoin (page_trace (App.update_progress (length doc)) doc <$> seq 0 i0)
        ++ [EvProgress (page_number i0) (Z.of_nat (length doc));
            EvRender i0; EvError]) ∧
     Desktop.analyze_pdf (App.document file)
     = (Returns ([], []),
        [EvOpen] ++ mjoin (page_trace (λ _, ret tt) doc <$> seq 0 i0)
        ++ [EvRender i0; EvError])).
Proof.
  intros Hw. split.
  - intros Hd. split.
    + rewrite app_analyze_failure by (right; split; [done|by left]).
      by rewrite (app_body_open_failure file _ Hw Hd).
    + rewrite Hd. by rewrite desktop_analyze_failure by (by left).
  - intros doc i0 Hd Hb. split.
    + by apply app_scan_aborts.
    + rewrite Hd. by apply desktop_scan_aborts.
Qed.

Lemma failed_scan_returns_empty_witness :
  let unopened := {| App.write := Returns tt; App.document := Raises Exception;
                     App.unlink := Returns tt |} in
  let file := {| App.write := Returns tt; App.document := Returns second_page_broken;
                 App.unlink := Returns tt |} in
  (App.analyze_pdf unopened
   = (Returns ([], [], 0), [EvTempWrite; EvOpen; EvError]) ∧
   Desktop.analyze_pdf (App.document unopened)
   = (Returns ([], []), [EvOpen; EvError])) ∧
  (App.analyze_pdf file
   = (Returns ([], [], 0),
      [EvTempWrite; EvOpen; EvProgressInit;
       EvProgress 1 2; EvRender 0; EvRead 0; EvRead 1; EvRead 2; EvAppend Color 1;
       EvProgress 2 2; EvRender 1; EvError]) ∧
   Desktop.analyze_pdf (App.document file)
   = (Returns ([], []),
      [EvOpen; EvRender 0; EvRead 0; EvRead 1; EvRead 2; EvAppend Color 1;
       EvRender 1; EvError])).
Proof.
  intros unopened file. split.
  - apply (failed_scan_returns_empty unopened); reflexivity.
  - apply (proj2 (failed_scan_returns_empty file eq_refl) second_page_broken 1%nat);
      [reflexivity|].
    split; [reflexivity|]. intros j Hj. destruct j as [|j]; [by eexists|lia].
Defined.

(** The first page of [second_page_broken] is classified and recorded
    as Color before the second one fails; the result is empty all the same. *)
Example partial_results_are_dropped :
  App.analyze_pdf {| App.write := Returns tt; App.document := Returns second_page_broken;
                     App.unlink := Returns tt |}
  = (Returns ([], [], 0),
     [EvTempWrite; EvOpen; EvProgressInit;
      EvProgress 1 2; EvRender 0; EvRead 0; EvRead 1; EvRead 2; EvAppend Color 1;
      EvProgress 2 2; EvRender 1; EvError]).
Proof. by vm_compute. Qed.

(** C8 fails as stated: in [src/app.py] the progress bar is updated at the
    top of the iteration.  For a document of one page the report 1/1 is
    issued before that page is rendered, let alone classified. *)
Lemma progress_reported_before_classification :
  (App.analyze_pdf one_page_upload).2
  = [EvTempWrite; EvOpen; EvProgressInit;
     EvProgress 1 1; EvRender 0; EvAppend Monochrome 1; EvClose; EvUnlink] ∧
  ¬ progress_after_classification (App.analyze_pdf one_page_upload).2.
Proof.
  split; [by vm_compute|]. intros H.
  destruct (H [EvTempWrite; EvOpen; EvProgressInit]
              [EvRender 0; EvAppend Monochrome 1; EvClose; EvUnlink] 1 1)
    as [c Hc]; [by vm_compute|].
  repeat (apply elem_of_cons in Hc as [Hc|Hc]; [discriminate Hc|]).
  by apply elem_of_nil in Hc.
Qed.

(** C8, as the code has it: in a scan of [src/app.py] that completes, the
    progress bar is updated exactly once per page, with the counts
    1, 2, ..., totalPages in this order, and the update for a page is the
    first thing its iteration does: it comes before the page is rendered,
    its raster is read and its page number is recorded.  The desktop front
    end reports no progress, whatever it is given to scan. *)
Theorem progress_precedes_each_page
    (file : App.Upload) (doc : list Page) (file_path : Outcome (list Page)) :
  App.write file = Returns tt → App.document file = Returns doc →
  Forall renders doc → App.unlink file = Returns tt →
  let total := length doc in
  let trace := (App.analyze_pdf file).2 in
  trace = [EvTempWrite; EvOpen; EvProgressInit]
          ++ mjoin (page_trace (App.update_progress total) doc <$> seq 0 total)
          ++ [EvClose; EvUnlink] ∧
  (∀ i pix, doc !! i = Some (Returns pix) →
     page_trace (App.update_progress total) doc i
     = EvProgress (page_number i) (Z.of_nat total) :: EvRender i
       :: (classify pix).2 ++ [EvAppend (verdict pix) (page_number i)] ∧
     Forall is_read (classify pix).2) ∧
  filter is_progress trace
  = (λ i, EvProgress (page_number i) (Z.of_nat total)) <$> seq 0 total ∧
  filter is_progress (Desktop.analyze_pdf file_path).2 = [] ∧
  filter is_progress (Desktop.analyze_pdf (App.document file)).2 = [].
Proof.
  intros Hw Hd Hall Hu total trace.
  pose proof (app_body_success file doc Hw Hd Hall Hu) as Hbody.
  assert (trace = (App.analyze_pdf_body file).2) as ->.
  { unfold trace, App.analyze_pdf.
    by rewrite (try_except_ok _ _ _ (f_equal fst Hbody)). }
  rewrite Hbody. cbn [snd]. fold total. split; [done|]. split; [|split].
  - intros i pix Hpix. split; [by apply app_page_trace|apply classify_reads].
  - rewrite !filter_app, filter_progress_pages.
    + cbn. by rewrite app_nil_r.
    + intros i Hi. apply all_pages_render; [done|]. by rewrite py_range_step1, Nat.sub_0_r.
  - split; apply desktop_no_progress.
Qed.

Lemma progress_precedes_each_page_witness :
  let file := {| App.write := Returns tt; App.document := Returns three_pages;
                 App.unlink := Returns tt |} in
  let total := length three_pages in
  let trace := (App.analyze_pdf file).2 in
  trace = [EvTempWrite; EvOpen; EvProgressInit]
          ++ mjoin (page_trace (App.update_progress total) three_pages <$> seq 0 total)
          ++ [EvClose; EvUnlink] ∧
  (∀ i pix, three_pages !! i = Some (Returns pix) →
     page_trace (App.update_progress total) three_pages i
     = EvProgress (page_number i) (Z.of_nat total) :: EvRender i
       :: (classify pix).2 ++ [EvAppend (verdict pix) (page_number i)] ∧
     Forall is_read (classify pix).2) ∧
  filter is_progress trace
  = (λ i, EvProgress (page_number i) (Z.of_nat total)) <$> seq 0 total ∧
  filter is_progress (Desktop.analyze_pdf (Raises Exception)).2 = [] ∧
  filter is_progress (Desktop.analyze_pdf (App.document file)).2 = [].
Proof.
  intros file.
  apply (progress_precedes_each_page file three_pages (Raises Exception));
    try reflexivity.
  unfold three_pages. repeat constructor; eexists; reflexivity.
Defined.

(** The scenario of the specification: ten pages of which 1-3 and 5 are
    colour. *)
Example end_to_end :
  let red := Returns {| colorspace := Some {| cs_n := 3 |}; samples := [255; 0; 0] |} in
  let gray := Returns {| colorspace := Some {| cs_n := 3 |}; samples := [90; 90; 90] |} in
  let doc := [red; red; red; gray; red; gray; gray; gray; gray; gray] in
  (App.analyze_pdf {| App.write := Returns tt; App.document := Returns doc;
                      App.unlink := Returns tt |}).1
  = Returns ([1; 2; 3; 5], [4; 6; 7; 8; 9; 10], 10) ∧
  format_page_list [1; 2; 3; 5] = Some ("1-3, 5"%string, [1; 2; 3; 5]) ∧
  format_page_list [4; 6; 7; 8; 9; 10] = Some ("4, 6-10"%string, [4; 6; 7; 8; 9; 10]).
Proof. by vm_compute. Qed.

(** A key or an interrupt is not an error of the document: an exception
    that is not an instance of [Exception] passes the handler, without a
    report and without a result. *)
Example interrupt_passes_the_handler :
  App.analyze_pdf {| App.write := Returns tt;
                     App.document := Returns [Raises OtherBaseException];
                     App.unlink := Returns tt |}
  = (Raises OtherBaseException,
     [EvTempWrite; EvOpen; EvProgressInit; EvProgress 1 1; EvRender 0]).
Proof. by vm_compute. Qed.

(** * Further properties of the scan *)

Lemma not_error_not_elem tr : Forall not_error tr → EvError ∉ tr.
Proof. intros H Hin. by apply (proj1 (Forall_forall _ _) H EvError Hin). Qed.

Lemma app_failure_unique file e e' :
  app_failure file e → app_failure file e' → e = e'.
Proof.
  intros H H'. apply app_failure_body in H, H'. congruence.
Qed.

Lemma desktop_failure_unique path e e' :
  desktop_failure path e → desktop_failure path e' → e = e'.
Proof.
  intros H H'. apply desktop_failure_body in H, H'. congruence.
Qed.

Lemma error_in_app_trace file :
  EvError ∈ (App.analyze_pdf file).2
  ↔ (App.analyze_pdf_body file).1 = Raises Exception.
Proof.
  rewrite app_analyze_trace, elem_of_app.
  pose proof (not_error_not_elem _ (app_body_not_error file)) as Hbody.
  destruct (App.analyze_pdf_body file).1 as [r|[]].
  - split; [|done]. intros [Hin|Hin]; [done|by apply elem_of_nil in Hin].
  - split; [done|]. intros _. right. by left.
  - split; [|done]. intros [Hin|Hin]; [done|by apply elem_of_nil in Hin].
Qed.

Lemma error_in_desktop_trace path :
  EvError ∈ (Desktop.analyze_pdf path).2
  ↔ (Desktop.analyze_pdf_body path).1 = Raises Exception.
Proof.
  rewrite desktop_analyze_trace, elem_of_app.
  pose proof (not_error_not_elem _ (desktop_body_not_error path)) as Hbody.
  destruct (Desktop.analyze_pdf_body path).1 as [r|[]].
  - split; [|done]. intros [Hin|Hin]; [done|by apply elem_of_nil in Hin].
  - split; [done|]. intros _. right. by left.
  - split; [|done]. intros [Hin|Hin]; [done|by apply elem_of_nil in Hin].
Qed.

Lemma app_body_raises_iff file e :
  (App.analyze_pdf_body file).1 = Raises e ↔ app_failure file e.
Proof.
  split; [|apply app_failure_body]. intros Hr.
  destruct (app_cases file) as [[e' Hf]|(doc & Hw & Hd & Hall & Hu)].
  - pose proof (app_failure_body file e' Hf) as Hr'.
    assert (e = e') as -> by congruence. done.
  - rewrite (app_body_success file doc Hw Hd Hall Hu) in Hr. discriminate Hr.
Qed.

Lemma desktop_body_raises_iff path e :
  (Desktop.analyze_pdf_body path).1 = Raises e ↔ desktop_failure path e.
Proof.
  split; [|apply desktop_failure_body]. intros Hr.
  destruct (desktop_cases path) as [[e' Hf]|(doc & -> & Hall)].
  - pose proof (desktop_failure_body path e' Hf) as Hr'.
    assert (e = e') as -> by congruence. done.
  - rewrite (desktop_body_success doc Hall) in Hr. discriminate Hr.
Qed.

Lemma try_except_fst {A} (body handler : M A) e :
  (∃ x, handler.1 = Returns x) →
  (try_except body handler).1 = Raises e
  ↔ e = OtherBaseException ∧ body.1 = Raises OtherBaseException.
Proof.
  intros [x Hx]. unfold try_except.
  destruct body.1 as [a|[]] eqn:Hb; cbn [fst]; rewrite ?Hb, ?Hx.
  - split; [done|]. by intros [].
  - split; [done|]. by intros [].
  - split; [by intros [= <-]|by intros [-> _]].
Qed.

(** X1: of the exceptions raised inside its [try] block, [analyze_pdf] lets
    out exactly those that are not instances of [Exception]: the call ends
    with such an exception exactly when the first thing that fails raises
    one, and it never ends with an instance of [Exception].  An error is
    reported exactly when the first thing that fails raises an instance of
    [Exception]: for [src/app.py] the temporary copy, the opening, a page or
    the removal of the copy; for the desktop front end the opening or a
    page. *)
Theorem error_reported_iff_failure
    (file : App.Upload) (file_path : Outcome (list Page)) (e : Exc) :
  (((App.analyze_pdf file).1 = Raises e
    ↔ e = OtherBaseException ∧ app_failure file OtherBaseException) ∧
   (EvError ∈ (App.analyze_pdf file).2 ↔ app_failure file Exception)) ∧
  (((Desktop.analyze_pdf file_path).1 = Raises e
    ↔ e = OtherBaseException ∧ desktop_failure file_path OtherBaseException) ∧
   (EvError ∈ (Desktop.analyze_pdf file_path).2
    ↔ desktop_failure file_path Exception)).
Proof.
  split; split.
  - unfold App.analyze_pdf. rewrite try_except_fst by (by eexists).
    by rewrite app_body_raises_iff.
  - by rewrite error_in_app_trace, app_body_raises_iff.
  - unfold Desktop.analyze_pdf. rewrite try_except_fst by (by eexists).
    by rewrite desktop_body_raises_iff.
  - by rewrite error_in_desktop_trace, desktop_body_raises_iff.
Qed.

(** X2: in [src/app.py] the temporary copy is removed inside the [try]
    block, so a failure of [os.unlink] after every page has been classified
    and the document closed throws the whole result away: the scan returns
    the empty result and reports an error. *)
Theorem unlink_failure_discards_results (file : App.Upload) (doc : list Page) :
  App.write file = Returns tt → App.document file = Returns doc →
  Forall renders doc → App.unlink file = Raises Exception →
  App.analyze_pdf file
  = (Returns ([], [], 0),
     [EvTempWrite; EvOpen; EvProgressInit]
     ++ mjoin (page_trace (App.update_progress (length doc)) doc
               <$> seq 0 (length doc))
     ++ [EvClose; EvUnlink; EvError]).
Proof.
  intros Hw Hd Hall Hu.
  rewrite app_analyze_failure
    by (right; split; [done|]; right; exists doc; split; [done|]; by right).
  rewrite (app_body_unlink_failure file doc _ Hw Hd Hall Hu). cbn [snd].
  by rewrite <- !app_assoc.
Qed.

Lemma unlink_failure_discards_results_witness :
  App.analyze_pdf {| App.write := Returns tt; App.document := Returns three_pages;
                     App.unlink := Raises Exception |}
  = (Returns ([], [], 0),
     [EvTempWrite; EvOpen; EvProgressInit]
     ++ mjoin (page_trace (App.update_progress (length three_pages)) three_pages
               <$> seq 0 (length three_pages))
     ++ [EvClose; EvUnlink; EvError]).
Proof.
  apply (unlink_failure_discards_results _ three_pages); try reflexivity.
  unfold three_pages. repeat constructor; eexists; reflexivity.
Defined.

(** The trace of a scan in which the document does not open or a page does
    not render: what precedes the page loop, page events, and the error
    report if there is one. *)
Lemma app_failed_scan_trace file :
  ((∃ e, App.document file = Raises e) ∨
   ∃ doc i e, App.document file = Returns doc ∧ doc !! i = Some (Raises e)) →
  ∃ before pages report,
    (App.analyze_pdf file).2 = before ++ pages ++ report ∧
    before `prefix_of` [EvTempWrite; EvOpen; EvProgressInit] ∧
    Forall page_event pages ∧
    report `prefix_of` [EvError].
Proof.
  intros Hfail. rewrite app_analyze_trace.
  set (report := match _ with Raises Exception => [EvError] | _ => [] end).
  assert (report `prefix_of` [EvError]) as Hreport.
  { unfold report.
    destruct (App.analyze_pdf_body file).1 as [r|[]]; [by eexists|done|by eexists]. }
  clearbody report.
  unfold App.analyze_pdf_body.
  destruct (App.write file) as [[]|e0]; unfold io; last first.
  { exists [EvTempWrite], [], report. split; [done|].
    split; [by eexists|]. split; [constructor|done]. }
  rewrite (bind_Returns (Returns tt, [EvTempWrite]) _ tt [EvTempWrite]) by done.
  destruct Hfail as [[e ->]|(doc & i & e & -> & Hi)]; unfold open_doc.
  { exists [EvTempWrite; EvOpen], [], report. split; [done|].
    split; [by eexists|]. split; [constructor|done]. }
  rewrite (bind_Returns (Returns doc, [EvOpen]) _ doc [EvOpen]) by done.
  rewrite (bind_Returns (emit EvProgressInit) _ tt [EvProgressInit]) by done.
  set (loop := page_loop _ _ _ _).
  assert (∃ e', loop.1 = Raises e') as [e' Hraises].
  { eapply page_loop_failure; [|done]. rewrite py_range_step1.
    apply elem_of_seq. apply lookup_lt_Some in Hi. lia. }
  assert (Forall page_event loop.2) as Hev.
  { apply page_loop_page_events. intros j. by repeat constructor. }
  exists [EvTempWrite; EvOpen; EvProgressInit], loop.2, report.
  split; [|done]. cbn [fst snd].
  rewrite (bind_snd_Raises loop _ e') by done. by rewrite <- !app_assoc.
Qed.

Lemma desktop_failed_scan_trace path :
  ((∃ e, path = Raises e) ∨
   ∃ doc i e, path = Returns doc ∧ doc !! i = Some (Raises e)) →
  ∃ pages report,
    (Desktop.analyze_pdf path).2 = [EvOpen] ++ pages ++ report ∧
    Forall page_event pages ∧
    report `prefix_of` [EvError].
Proof.
  intros Hfail. rewrite desktop_analyze_trace.
  set (report := match _ with Raises Exception => [EvError] | _ => [] end).
  assert (report `prefix_of` [EvError]) as Hreport.
  { unfold report.
    destruct (Desktop.analyze_pdf_body path).1 as [r|[]]; [by eexists|done|by eexists]. }
  clearbody report.
  unfold Desktop.analyze_pdf_body.
  destruct Hfail as [[e ->]|(doc & i & e & -> & Hi)]; unfold open_doc.
  { exists [], report. split; [done|]. split; [constructor|done]. }
  rewrite (bind_Returns (Returns doc, [EvOpen]) _ doc [EvOpen]) by done.
  set (loop := page_loop _ _ _ _).
  assert (∃ e', loop.1 = Raises e') as [e' Hraises].
  { eapply page_loop_failure; [|done]. rewrite py_range_step1.
    apply elem_of_seq. apply lookup_lt_Some in Hi. lia. }
  assert (Forall page_event loop.2) as Hev.
  { apply page_loop_page_events. intros j. constructor. }
  exists loop.2, report. split; [|done]. cbn [fst snd].
  rewrite (bind_snd_Raises loop _ e') by done. by rewrite <- !app_assoc.
Qed.

(** X3: [doc.close()] (and, in [src/app.py], [os.unlink]) sit at the end of
    the [try] block and there is no [finally]: when the document does not
    open or a page does not render, whatever the exception, the scan ends
    without closing the document and without removing the temporary copy;
    the trace holds none of the two events. *)
Theorem failed_scan_skips_cleanup (file : App.Upload) :
  ((∃ e, App.document file = Raises e) ∨
   ∃ doc i e, App.document file = Returns doc ∧ doc !! i = Some (Raises e)) →
  Forall (λ e, e ≠ EvClose ∧ e ≠ EvUnlink) (App.analyze_pdf file).2 ∧
  Forall (λ e, e ≠ EvClose) (Desktop.analyze_pdf (App.document file)).2.
Proof.
  intros Hfail. split.
  - destruct (app_failed_scan_trace file Hfail)
      as (before & pages & report & -> & Hpre & Hev & Hrep).
    rewrite !Forall_app. split; [|split].
    + apply Forall_forall. intros e He.
      destruct Hpre as [rest Hrest].
      assert (e ∈ [EvTempWrite; EvOpen; EvProgressInit]) as Hin
        by (rewrite Hrest; apply elem_of_app; by left).
      repeat (apply elem_of_cons in Hin as [->|Hin]; [done|]).
      by apply elem_of_nil in Hin.
    + eapply Forall_impl; [done|]. by intros [].
    + apply Forall_forall. intros e He.
      destruct Hrep as [rest Hrest].
      assert (e ∈ [EvError]) as Hin by (rewrite Hrest; apply elem_of_app; by left).
      apply list_elem_of_singleton in Hin as ->. done.
  - destruct (desktop_failed_scan_trace (App.document file) Hfail)
      as (pages & report & -> & Hev & Hrep).
    rewrite !Forall_app. split; [by repeat constructor|split].
    + eapply Forall_impl; [done|]. by intros [].
    + apply Forall_forall. intros e He.
      destruct Hrep as [rest Hrest].
      assert (e ∈ [EvError]) as Hin by (rewrite Hrest; apply elem_of_app; by left).
      apply list_elem_of_singleton in Hin as ->. done.
Qed.

Lemma failed_scan_skips_cleanup_witness :
  let file := {| App.write := Returns tt; App.document := Returns second_page_broken;
                 App.unlink := Returns tt |} in
  Forall (λ e, e ≠ EvClose ∧ e ≠ EvUnlink) (App.analyze_pdf file).2 ∧
  Forall (λ e, e ≠ EvClose) (Desktop.analyze_pdf (App.document file)).2.
Proof.
  intros file. apply (failed_scan_skips_cleanup file).
  right. exists second_page_broken, 1%nat, Exception. split; reflexivity.
Defined.

Lemma StronglySorted_lt_seq a n : StronglySorted lt (seq a n).
Proof.
  revert a. induction n as [|n IH]; intros a; [constructor|].
  cbn [seq]. constructor; [apply IH|].
  apply Forall_seq. intros i Hi. lia.
Qed.

Lemma StronglySorted_filter {A} (R : relation A) (P : A → Prop)
    `{∀ x, Decision (P x)} l :
  StronglySorted R l → StronglySorted R (filter P l).
Proof.
  induction 1 as [|x l Hl IH Hx]; [constructor|].
  rewrite filter_cons. destruct (decide (P x)); [|done].
  constructor; [done|].
  apply Forall_forall. intros y Hy. apply list_elem_of_filter in Hy as [_ Hy].
  by apply (proj1 (Forall_forall _ _) Hx).
Qed.

Lemma page_numbers_ascending (P : nat → Prop) `{∀ x, Decision (P x)} n :
  StronglySorted Z.lt (page_number <$> filter P (seq 0 n)).
Proof.
  apply (StronglySorted_fmap _ lt Z.lt).
  - intros i j Hij. unfold page_number. lia.
  - apply StronglySorted_filter, StronglySorted_lt_seq.
Qed.

(** Both lists returned by a scan are strictly ascending, whatever the
    input. *)
Lemma app_results_ascending file c b t :
  (App.analyze_pdf file).1 = Returns (c, b, t) →
  StronglySorted Z.lt c ∧ StronglySorted Z.lt b.
Proof.
  destruct (app_cases file) as [[[] Hf]|(doc & Hw & Hd & Hall & Hu)].
  - rewrite (app_analyze_failure file Hf). intros [= <- <- <-].
    split; constructor.
  - by rewrite (app_analyze_interrupted file Hf).
  - rewrite (app_analyze_success file doc Hw Hd Hall Hu). intros [= <- <- <-].
    split; apply page_numbers_ascending.
Qed.

Lemma desktop_results_ascending path c b :
  (Desktop.analyze_pdf path).1 = Returns (c, b) →
  StronglySorted Z.lt c ∧ StronglySorted Z.lt b.
Proof.
  destruct (desktop_cases path) as [[[] Hf]|(doc & -> & Hall)].
  - rewrite (desktop_analyze_failure path Hf). intros [= <- <-].
    split; constructor.
  - by rewrite (desktop_analyze_interrupted path Hf).
  - rewrite (desktop_analyze_success doc Hall). intros [= <- <-].
    split; apply page_numbers_ascending.
Qed.

Lemma ascending_Sorted_le l : StronglySorted Z.lt l → Sorted Z.le l.
Proof.
  intros H. apply StronglySorted_Sorted.
  induction H as [|x l Hl IH Hx]; constructor; [done|].
  eapply Forall_impl; [done|]. intros y Hy. simpl in Hy. lia.
Qed.

Lemma format_ascending l :
  StronglySorted Z.lt l → format_page_list l = Some (spec_format l, l).
Proof.
  intros H. rewrite format_page_list_eq. do 2 f_equal.
  symmetry. apply py_sort_unique; [|done]. by apply ascending_Sorted_le.
Qed.

(** X4: the page numbers in each list returned by [analyze_pdf] are
    strictly ascending (hence free of repetitions), in both front ends and
    on every input: pages are visited in order and only ever appended. *)
Theorem scan_results_are_ascending
    (file : App.Upload) (file_path : Outcome (list Page)) c b t c' b' :
  (App.analyze_pdf file).1 = Returns (c, b, t) →
  (Desktop.analyze_pdf file_path).1 = Returns (c', b') →
  (StronglySorted Z.lt c ∧ StronglySorted Z.lt b) ∧
  (StronglySorted Z.lt c' ∧ StronglySorted Z.lt b').
Proof.
  intros Ha Hd. split.
  - by eapply app_results_ascending.
  - by eapply desktop_results_ascending.
Qed.

Lemma scan_results_are_ascending_witness :
  (StronglySorted Z.lt [1] ∧ StronglySorted Z.lt [2; 3]) ∧
  (StronglySorted Z.lt [1] ∧ StronglySorted Z.lt [2; 3]).
Proof.
  apply (scan_results_are_ascending
           {| App.write := Returns tt; App.document := Returns three_pages;
              App.unlink := Returns tt |} (Returns three_pages) [1] [2; 3] 3 [1] [2; 3]);
    reflexivity.
Defined.

(** X5: the in-place sort of [format_page_list] never reorders a list that
    comes from [analyze_pdf]: called on either result list, as the front
    ends do, it returns its text and leaves the list as it was. *)
Theorem formatting_scan_results_keeps_them
    (file : App.Upload) (file_path : Outcome (list Page)) c b t c' b' :
  (App.analyze_pdf file).1 = Returns (c, b, t) →
  (Desktop.analyze_pdf file_path).1 = Returns (c', b') →
  format_page_list c = Some (spec_format c, c) ∧
  format_page_list b = Some (spec_format b, b) ∧
  format_page_list c' = Some (spec_format c', c') ∧
  format_page_list b' = Some (spec_format b', b').
Proof.
  intros Ha Hd.
  destruct (app_results_ascending _ _ _ _ Ha) as [Hc Hb].
  destruct (desktop_results_ascending _ _ _ Hd) as [Hc' Hb'].
  auto using format_ascending.
Qed.

Lemma formatting_scan_results_keeps_them_witness :
  format_page_list [1] = Some (spec_format [1], [1]) ∧
  format_page_list [2; 3] = Some (spec_format [2; 3], [2; 3]) ∧
  format_page_list [1] = Some (spec_format [1], [1]) ∧
  format_page_list [2; 3] = Some (spec_format [2; 3], [2; 3]).
Proof.
  apply (formatting_scan_results_keeps_them
           {| App.write := Returns tt; App.document := Returns three_pages;
              App.unlink := Returns tt |} (Returns three_pages) [1] [2; 3] 3 [1] [2; 3]);
    reflexivity.
Defined.

(** X6: [analyze_pdf] of [src/app.py] returns [total_pages = 0] in exactly
    two situations, a scan that failed with an instance of [Exception] and
    a scan that went through on a document without pages, and in both the
    two lists are empty: the return value does not tell them apart. *)
Theorem zero_total_iff_failure_or_empty (file : App.Upload) :
  ((∃ c b, (App.analyze_pdf file).1 = Returns (c, b, 0)) ↔
   app_failure file Exception ∨
   (App.write file = Returns tt ∧ App.document file = Returns [] ∧
    App.unlink file = Returns tt)) ∧
  ((∃ c b, (App.analyze_pdf file).1 = Returns (c, b, 0)) ↔
   (App.analyze_pdf file).1 = Returns ([], [], 0)).
Proof.
  assert ((∃ c b, (App.analyze_pdf file).1 = Returns (c, b, 0)) →
          (App.analyze_pdf file).1 = Returns ([], [], 0) ∧
          (app_failure file Exception ∨
           (App.write file = Returns tt ∧ App.document file = Returns [] ∧
            App.unlink file = Returns tt))) as Hzero.
  { intros (c & b & Hr).
    destruct (app_cases file) as [[[] Hf]|(doc & Hw & Hd & Hall & Hu)].
    - rewrite (app_analyze_failure file Hf). split; [done|by left].
    - by rewrite (app_analyze_interrupted file Hf) in Hr.
    - rewrite (app_analyze_success file doc Hw Hd Hall Hu) in *.
      injection Hr as _ _ Hlen. destruct doc; [|done]. split; [done|by right]. }
  split; split.
  - intros H. by apply Hzero.
  - intros [Hf|(Hw & Hd & Hu)].
    + exists [], []. by rewrite (app_analyze_failure file Hf).
    + exists [], [].
      by rewrite (app_analyze_success file [] Hw Hd (Forall_nil_2 _) Hu).
  - intros H. by apply Hzero.
  - intros H. by exists [], [].
Qed.

(** * Further properties of the classifier *)

Lemma mod_30_offset q r : (r < 30)%nat → ((q * 30 + r) mod 30 = r)%nat.
Proof.
  intros Hr. rewrite Nat.add_comm, Nat.Div0.mod_add. by apply Nat.mod_small.
Qed.

Lemma py_range_30_spaced stop :
  StronglySorted (λ a b, a + 3 ≤ b)%nat (py_range 0 stop 30) ∧
  Forall (λ i, ∃ q, i = q * 30)%nat (py_range 0 stop 30).
Proof.
  unfold py_range. split.
  - apply (StronglySorted_fmap _ lt); [intros i j Hij; lia|].
    apply StronglySorted_lt_seq.
  - apply Forall_fmap, Forall_forall. intros k _. exists k. simpl. lia.
Qed.

Lemma sampled_triple_ok (img : list Z) q :
  (q * 30 + 2 < length img)%nat →
  Forall (λ j, j < length img ∧ j mod 30 < 3)%nat
         [q * 30; q * 30 + 1; q * 30 + 2]%nat.
Proof.
  intros H.
  apply Forall_cons. split; [split; [lia|rewrite Nat.Div0.mod_mul; lia]|].
  apply Forall_cons. split; [split; [lia|rewrite mod_30_offset; lia]|].
  apply Forall_cons. split; [split; [lia|rewrite mod_30_offset; lia]|].
  apply Forall_nil_2.
Qed.

Lemma triple_then_later a (later : list nat) :
  StronglySorted lt later → Forall (λ j, a + 3 ≤ j)%nat later →
  StronglySorted lt ([a; a + 1; a + 2]%nat ++ later).
Proof.
  intros Hs Hge.
  assert (∀ d, (d < 3)%nat → Forall (lt (a + d)%nat) later) as Hlt.
  { intros d Hd. eapply Forall_impl; [exact Hge|]. intros j Hj. simpl in Hj. lia. }
  cbn [app].
  apply SSorted_cons; [apply SSorted_cons; [apply SSorted_cons; [done|]|]|].
  - apply Hlt. lia.
  - apply Forall_cons. split; [lia|]. apply Hlt. lia.
  - apply Forall_cons. split; [lia|]. apply Forall_cons. split; [lia|].
    specialize (Hlt 0%nat). rewrite Nat.add_0_r in Hlt. apply Hlt. lia.
Qed.

Lemma triple_from_offset q (rest : list nat) :
  Forall (λ j, ∃ i, i ∈ (q * 30)%nat :: rest ∧ i ≤ j)%nat
         [q * 30; q * 30 + 1; q * 30 + 2]%nat.
Proof.
  apply Forall_cons. split; [exists (q * 30)%nat; split; [by left|lia]|].
  apply Forall_cons. split; [exists (q * 30)%nat; split; [by left|lia]|].
  apply Forall_cons. split; [exists (q * 30)%nat; split; [by left|lia]|].
  apply Forall_nil_2.
Qed.

(** The reads of the sampling loop, for offsets that are multiples of 30 in
    ascending order. *)
Lemma sample_loop_read_offsets img offsets :
  StronglySorted (λ a b, a + 3 ≤ b)%nat offsets →
  Forall (λ i, ∃ q, i = q * 30)%nat offsets →
  ∃ reads,
    (sample_loop img offsets).2 = EvRead <$> reads ∧
    Forall (λ j, j < length img ∧ j mod 30 < 3)%nat reads ∧
    StronglySorted lt reads ∧
    Forall (λ j, ∃ i, i ∈ offsets ∧ i ≤ j)%nat reads ∧
    (length reads ≤ 3 * length offsets)%nat.
Proof.
  induction 1 as [|i rest Hrest IH Hi]; intros Hmul.
  { exists []. split; [done|]. split; [constructor|]. split; [constructor|].
    split; [constructor|]. simpl. lia. }
  apply Forall_cons in Hmul as [[q ->] Hmul].
  destruct (IH Hmul) as (reads & Htr & Hin & Hsorted & Hfrom & Hlen).
  assert (Forall (λ j, ∃ i, i ∈ (q * 30)%nat :: rest ∧ i ≤ j)%nat reads) as Hfrom'.
  { eapply Forall_impl; [exact Hfrom|]. intros j (i & Hi' & Hle).
    exists i. split; [by right|done]. }
  destruct (decide (q * 30 + 2 < length img)%nat) as [Hb|Hb].
  - destruct (triple_at_in_bounds img _ Hb) as (r & g & b & Hr & Hg & Hbl).
    rewrite (sample_loop_in_bounds _ _ _ _ _ _ Hr Hg Hbl).
    destruct (differs r g b).
    + exists [q * 30; q * 30 + 1; q * 30 + 2]%nat.
      split; [done|]. split; [by apply sampled_triple_ok|]. split.
      { rewrite <- (app_nil_r [_; _; _]). apply triple_then_later; constructor. }
      split; [apply triple_from_offset|]. simpl. lia.
    + exists ([q * 30; q * 30 + 1; q * 30 + 2]%nat ++ reads). cbn [fst snd].
      split; [by rewrite Htr, fmap_app|].
      split; [apply Forall_app; split; [by apply sampled_triple_ok|done]|].
      split; [|split].
      * apply triple_then_later; [done|].
        eapply Forall_impl; [exact Hfrom|]. intros j (i & Hi' & Hle).
        pose proof (proj1 (Forall_forall _ _) Hi i Hi') as Hge. simpl in Hge. lia.
      * apply Forall_app. split; [apply triple_from_offset|done].
      * rewrite length_app. simpl in *. lia.
  - rewrite sample_loop_skip by done.
    exists reads. split; [done|]. split; [done|]. split; [done|].
    split; [done|]. simpl. lia.
Qed.

(** X7: the classifier never indexes outside the raster, so it never
    raises, and it reads little of the raster: every access is at an offset
    below [len(img_data)] that is 0, 1 or 2 modulo 30, each at most once and
    in ascending order, so at most 3 bytes for every 30 of the buffer
    (rounded up). *)
Theorem classifier_reads_are_sparse_and_in_bounds (pix : Pixmap) :
  ∃ reads,
    classify pix = (Returns (verdict pix), EvRead <$> reads) ∧
    Forall (λ j, j < length (samples pix) ∧ j mod 30 < 3)%nat reads ∧
    StronglySorted lt reads ∧
    (length reads ≤ 3 * ((length (samples pix) + 29) / 30))%nat.
Proof.
  rewrite (classify_eq pix).
  unfold classify. destruct (colorspace pix) as [cs|]; last first.
  { exists []. repeat split; try constructor. simpl. lia. }
  destruct (3 <=? cs_n cs); last first.
  { exists []. repeat split; try constructor. simpl. lia. }
  change (3 * 10)%nat with 30%nat.
  destruct (py_range_30_spaced (length (samples pix))) as [Hs Hm].
  destruct (sample_loop_read_offsets (samples pix) _ Hs Hm)
    as (reads & Htr & Hin & Hsorted & _ & Hlen).
  exists reads.
  pose proof (sample_loop_fst (samples pix) (py_range 0 (length (samples pix)) 30)) as Hfst.
  split.
  { f_equal. unfold bind. rewrite Hfst. cbn [fst snd]. by rewrite Htr, app_nil_r. }
  split; [done|]. split; [done|].
  etrans; [exact Hlen|]. unfold py_range. rewrite length_fmap, length_seq.
  apply Nat.mul_le_mono_l. apply Nat.Div0.div_le_mono. lia.
Qed.

Lemma sample_loop_agree img img' offsets :
  length img = length img' →
  (∀ i, i ∈ offsets →
     img !! i = img' !! i ∧ img !! (i + 1)%nat = img' !! (i + 1)%nat
     ∧ img !! (i + 2)%nat = img' !! (i + 2)%nat) →
  sample_loop img offsets = sample_loop img' offsets.
Proof.
  intros Hlen. induction offsets as [|i rest IH]; intros Hag; [done|].
  assert (sample_loop img rest = sample_loop img' rest) as Hrest
    by (apply IH; intros j Hj; apply Hag; by right).
  destruct (Hag i) as (H0 & H1 & H2); [by left|].
  destruct (decide (i + 2 < length img)%nat) as [Hb|Hb].
  - destruct (triple_at_in_bounds img i Hb) as (r & g & b & Hr & Hg & Hbl).
    rewrite (sample_loop_in_bounds img _ _ _ _ _ Hr Hg Hbl).
    rewrite H0 in Hr. rewrite H1 in Hg. rewrite H2 in Hbl.
    rewrite (sample_loop_in_bounds img' _ _ _ _ _ Hr Hg Hbl).
    by rewrite Hrest.
  - rewrite !sample_loop_skip by lia. done.
Qed.

(** X8: the classification of a page depends on the colorspace, on the
    length of the raster and on the bytes at offsets 0, 1 or 2 modulo 30,
    and on nothing else: two rasters of the same length that agree at these
    offsets get the same verdict with the same reads, whatever the other
    bytes are (colour that falls between the samples is not seen). *)
Theorem verdict_depends_on_sampled_bytes_only cs (img img' : list Z) :
  length img = length img' →
  (∀ i, (i mod 30 < 3)%nat → img !! i = img' !! i) →
  classify {| colorspace := cs; samples := img |}
  = classify {| colorspace := cs; samples := img' |}.
Proof.
  intros Hlen Hag. unfold classify. cbn [colorspace samples].
  destruct cs as [cs|]; [|done]. destruct (3 <=? cs_n cs); [|done].
  change (3 * 10)%nat with 30%nat. rewrite <- Hlen.
  rewrite (sample_loop_agree img img'); [done|done|].
  intros i Hi. apply elem_of_py_range_0 in Hi as (q & -> & _); [|lia].
  repeat split; apply Hag;
    rewrite ?Nat.Div0.mod_mul, ?mod_30_offset by lia; lia.
Qed.

Lemma verdict_depends_on_sampled_bytes_only_witness :
  classify {| colorspace := Some {| cs_n := 3 |}; samples := [90; 90; 90; 0; 0; 0] |}
  = classify {| colorspace := Some {| cs_n := 3 |}; samples := [90; 90; 90; 255; 0; 0] |}.
Proof.
  apply (verdict_depends_on_sampled_bytes_only (Some {| cs_n := 3 |})
           [90; 90; 90; 0; 0; 0] [90; 90; 90; 255; 0; 0]); [reflexivity|].
  intros i Hi.
  destruct i as [|[|[|[|[|[|i]]]]]]; try reflexivity.
  exfalso. cbn in Hi. lia.
Defined.

(** X9: an RGB raster ([n = 3]) in which every pixel has its three channels
    within 5 of each other is classified Monochrome: on three-channel
    rasters the sampling gives no false colour. *)
Theorem gray_rgb_raster_is_monochrome cs (img : list Z) :
  cs_n cs = 3 →
  (∀ px r g b,
     img !! (3 * px)%nat = Some r → img !! (3 * px + 1)%nat = Some g →
     img !! (3 * px + 2)%nat = Some b →
     Z.abs (r - g) ≤ 5 ∧ Z.abs (r - b) ≤ 5 ∧ Z.abs (g - b) ≤ 5) →
  (classify {| colorspace := Some cs; samples := img |}).1 = Returns Monochrome.
Proof.
  intros Hn Hgray. rewrite classify_fst. f_equal.
  destruct (decide (verdict {| colorspace := Some cs; samples := img |} = Color))
    as [Hv|Hv]; [exfalso|by destruct (verdict _)].
  apply verdict_color_iff in Hv as (i & r & g & b & ((k & ->) & Hr & Hg & Hb) & Hd);
    [|lia].
  replace (k * 30)%nat with (3 * (k * 10))%nat in * by lia.
  apply differs_true in Hd. specialize (Hgray _ _ _ _ Hr Hg Hb). lia.
Qed.

Lemma gray_rgb_raster_is_monochrome_witness :
  (classify {| colorspace := Some {| cs_n := 3 |};
               samples := [7; 7; 7; 200; 203; 198] |}).1 = Returns Monochrome.
Proof.
  apply (gray_rgb_raster_is_monochrome {| cs_n := 3 |} [7; 7; 7; 200; 203; 198]);
    [reflexivity|].
  intros px r g b Hr Hg Hb.
  destruct px as [|[|px]].
  - vm_compute in Hr, Hg, Hb. simplify_eq. lia.
  - vm_compute in Hr, Hg, Hb. simplify_eq. lia.
  - apply lookup_lt_Some in Hr. simpl in Hr. lia.
Defined.

(** * Further properties of the formatter *)

Lemma py_sort_permutation_eq l1 l2 : l1 ≡ₚ l2 → py_sort l1 = py_sort l2.
Proof.
  intros Hp. apply py_sort_unique; [apply py_sort_Sorted|].
  by rewrite py_sort_Permutation.
Qed.

(** X10: [format_page_list] does not depend on the order of its input: two
    lists that hold the same numbers the same number of times give the same
    text, and both are left holding the same ascending list. *)
Theorem format_page_list_ignores_order (l1 l2 : list Z) :
  l1 ≡ₚ l2 → format_page_list l1 = format_page_list l2.
Proof.
  intros Hp. rewrite !format_page_list_eq. unfold spec_format.
  by rewrite (py_sort_permutation_eq l1 l2 Hp).
Qed.

Lemma format_page_list_ignores_order_witness :
  format_page_list [2; 3; 1; 7] = format_page_list [7; 1; 2; 3].
Proof.
  apply (format_page_list_ignores_order [2; 3; 1; 7] [7; 1; 2; 3]).
  etrans; [symmetry; apply (Permutation_cons_append [2; 3; 1] 7)|].
  apply perm_skip. symmetry. apply (Permutation_cons_append [2; 3] 1).
Defined.

Lemma run_from_lower_bound s k : Forall (λ x, s ≤ x) (run_from s k).
Proof.
  revert s. induction k as [|k IH]; intros s; cbn [run_from].
  - by repeat constructor.
  - constructor; [lia|]. eapply Forall_impl; [apply IH|]. intros x Hx. simpl in Hx. lia.
Qed.

Lemma run_from_Sorted s k : Sorted Z.le (run_from s k).
Proof.
  apply StronglySorted_Sorted. revert s.
  induction k as [|k IH]; intros s; cbn [run_from].
  - repeat constructor.
  - constructor; [apply IH|].
    eapply Forall_impl; [apply run_from_lower_bound|]. intros x Hx. simpl in Hx. lia.
Qed.

(** X11: a list that holds, in any order, exactly the numbers
    [s, s + 1, ..., s + k] is formatted as the single item "s" when [k = 0]
    and "s-(s+k)" otherwise, with no separator. *)
Theorem format_page_list_of_a_full_range (l : list Z) (s : Z) (k : nat) :
  l ≡ₚ run_from s k →
  format_page_list l
  = Some (if k is O then str s else str s +:+ "-" +:+ str (s + Z.of_nat k),
          run_from s k).
Proof.
  intros Hp. rewrite format_page_list_eq. unfold spec_format.
  rewrite <- (py_sort_unique l (run_from s k) (run_from_Sorted s k)) by done.
  rewrite group_runs_run_from. cbn [fmap list_fmap join String.concat].
  rewrite render_run_run_from. unfold render_range.
  destruct k; [by rewrite bool_decide_eq_true_2 by lia|].
  by rewrite bool_decide_eq_false_2 by lia.
Qed.

Lemma format_page_list_of_a_full_range_witness :
  format_page_list [6; 4; 5] = Some ("4-6"%string, [4; 5; 6]).
Proof.
  apply (format_page_list_of_a_full_range [6; 4; 5] 4 2).
  apply (Permutation_cons_append [4; 5] 6).
Defined.

(** * The callers *)

Lemma string_app_nil_l s : EmptyString +:+ s = s.
Proof. reflexivity. Qed.

Lemma string_app_assoc s1 s2 s3 : (s1 +:+ s2) +:+ s3 = s1 +:+ s2 +:+ s3.
Proof.
  induction s1 as [|a s1 IH]; [reflexivity|].
  change (String a ((s1 +:+ s2) +:+ s3) = String a (s1 +:+ s2 +:+ s3)).
  by rewrite IH.
Qed.

Lemma format_page_list_nonempty_eq x l :
  format_page_list (x :: l) = Some (spec_format (x :: l), py_sort (x :: l)).
Proof. apply format_page_list_eq. Qed.

(** [display_results] in its four cases. *)
Lemma display_results_none w :
  DesktopUi.display_results [] [] w
  = Some ({| content := EmptyString; editable := false |}, [], []).
Proof. reflexivity. Qed.

Lemma display_results_all_color x c w :
  DesktopUi.display_results (x :: c) [] w
  = Some ({| content := "All " +:+ str_len (x :: c) +:+ " pages contain color."
                        +:+ nl +:+ nl;
             editable := false |}, x :: c, []).
Proof.
  unfold DesktopUi.display_results.
  rewrite (bool_decide_eq_true_2 (x :: c ≠ [])) by done.
  rewrite (bool_decide_eq_true_2 (length (x :: c) = _)) by (simpl; lia).
  cbn [mbind option_bind]. rewrite (bool_decide_eq_false_2 ([] ≠ [])) by (intros H; by apply H).
  cbn [mbind option_bind]. unfold str_len.
  replace (length (x :: c) + length (@nil Z))%nat with (length (x :: c)) by (simpl; lia).
  reflexivity.
Qed.

Lemma display_results_all_bw y b w :
  DesktopUi.display_results [] (y :: b) w
  = Some ({| content := "All " +:+ str_len (y :: b)
                        +:+ " pages are black and white." +:+ nl;
             editable := false |}, [], y :: b).
Proof.
  unfold DesktopUi.display_results.
  rewrite (bool_decide_eq_false_2 ([] ≠ [])) by (intros H; by apply H).
  cbn [mbind option_bind].
  rewrite (bool_decide_eq_true_2 (y :: b ≠ [])) by done.
  rewrite (bool_decide_eq_true_2 (length (y :: b) = _)) by (simpl; lia).
  reflexivity.
Qed.

Lemma display_results_mixed x c y b w :
  DesktopUi.display_results (x :: c) (y :: b) w
  = Some ({| content :=
               "Color pages (" +:+ str_len (x :: c) +:+ "/"
               +:+ str (Z.of_nat (length (x :: c) + length (y :: b))) +:+ "): "
               +:+ spec_format (x :: c) +:+ nl +:+ nl
               +:+ "Black and white pages (" +:+ str_len (y :: b) +:+ "/"
               +:+ str (Z.of_nat (length (x :: c) + length (y :: b))) +:+ "): "
               +:+ spec_format (y :: b) +:+ nl;
             editable := false |}, py_sort (x :: c), py_sort (y :: b)).
Proof.
  unfold DesktopUi.display_results.
  rewrite (bool_decide_eq_true_2 (x :: c ≠ [])) by done.
  rewrite (bool_decide_eq_false_2 (length (x :: c) = _)) by (simpl; lia).
  rewrite format_page_list_nonempty_eq. cbn [mbind option_bind fst snd].
  rewrite (bool_decide_eq_true_2 (y :: b ≠ [])) by done.
  rewrite (bool_decide_eq_false_2 (length (y :: b) = _)) by (simpl; lia).
  rewrite format_page_list_nonempty_eq. cbn [mbind option_bind fst snd].
  unfold tk_insert_end, tk_config_state, tk_delete_all. cbn [editable content].
  rewrite string_app_nil_l, !string_app_assoc. reflexivity.
Qed.

Lemma display_results_shows (c b : list Z) :
  ∃ text c' b',
    (∀ previous,
       DesktopUi.display_results c b previous
       = Some ({| content := text; editable := false |}, c', b')) ∧
    ((c = [] ∧ b = []) → text = EmptyString).
Proof.
  destruct c as [|x c], b as [|y b].
  - eexists _, _, _. split; [intros w; apply display_results_none|]. done.
  - eexists _, _, _. split; [intros w; apply display_results_all_bw|]. by intros [].
  - eexists _, _, _. split; [intros w; apply display_results_all_color|]. by intros [].
  - eexists _, _, _. split; [intros w; apply display_results_mixed|]. by intros [].
Qed.

Ltac box_cases :=
  repeat split; try done; intros;
  repeat match goal with
         | H : _ ∧ _ |- _ => destruct H
         | H : _ ∨ _ |- _ => destruct H
         | H : ?x ≠ ?x |- _ => by destruct H
         end; try done.

(** X12: [display_results] replaces whatever the result box showed, whether
    or not the box was editable, and leaves it read-only; what it shows is
    determined by the two lists alone.  It shows nothing when both lists are
    empty, and it calls [format_page_list], and so sorts the caller's lists
    in place, only when both are non-empty; otherwise the lists are left
    untouched. *)
Theorem display_results_overwrites_the_box (color_pages bw_pages : list Z) :
  ∃ text color_pages' bw_pages',
    (∀ previous,
       DesktopUi.display_results color_pages bw_pages previous
       = Some ({| content := text; editable := false |}, color_pages', bw_pages')) ∧
    color_pages' ≡ₚ color_pages ∧ bw_pages' ≡ₚ bw_pages ∧
    ((color_pages = [] ∨ bw_pages = []) →
       color_pages' = color_pages ∧ bw_pages' = bw_pages) ∧
    ((color_pages ≠ [] ∧ bw_pages ≠ []) →
       color_pages' = py_sort color_pages ∧ bw_pages' = py_sort bw_pages) ∧
    ((color_pages = [] ∧ bw_pages = []) → text = EmptyString).
Proof.
  destruct color_pages as [|x c], bw_pages as [|y b].
  - eexists _, _, _. split; [intros w; apply display_results_none|].
    box_cases.
  - eexists _, _, _. split; [intros w; apply display_results_all_bw|].
    box_cases.
  - eexists _, _, _. split; [intros w; apply display_results_all_color|].
    box_cases.
  - eexists _, _, _. split; [intros w; apply display_results_mixed|].
    split; [apply py_sort_Permutation|]. split; [apply py_sort_Permutation|].
    box_cases.
Qed.

(** The lists of a scan that went through hold the pages by the verdict
    of the classifier. *)
Lemma scan_lists_by_verdict (doc : list Page) i pix :
  doc !! i = Some (Returns pix) →
  (page_number i ∈ color_pages_of doc (seq 0 (length doc))
   ↔ (classify pix).1 = Returns Color) ∧
  (page_number i ∈ bw_pages_of doc (seq 0 (length doc))
   ↔ (classify pix).1 = Returns Monochrome).
Proof.
  intros Hpix.
  rewrite (elem_of_color_pages_of doc i pix Hpix), (elem_of_bw_pages_of doc i pix Hpix).
  rewrite classify_fst. split; (split; [by intros ->|by intros [= ->]]).
Qed.

(** The desktop scan either passes on an exception that is not an instance
    of [Exception], or returns two lists, empty ones after a failure. *)
Lemma desktop_analyze_cases path :
  (desktop_failure path OtherBaseException ∧
   Desktop.analyze_pdf path
   = (Raises OtherBaseException, (Desktop.analyze_pdf path).2) ∧
   Forall not_error (Desktop.analyze_pdf path).2) ∨
  (¬ desktop_failure path OtherBaseException ∧
   ∃ c b, Desktop.analyze_pdf path = (Returns (c, b), (Desktop.analyze_pdf path).2) ∧
          (desktop_failure path Exception → c = [] ∧ b = [])).
Proof.
  destruct (desktop_cases path) as [[[] Hf]|(doc & -> & Hall)].
  - right. split.
    { intros Hf'. by pose proof (desktop_failure_unique _ _ _ Hf Hf'). }
    exists [], []. by rewrite (desktop_analyze_failure path Hf).
  - left. split; [done|]. rewrite (desktop_analyze_interrupted path Hf).
    split; [done|]. apply desktop_body_not_error.
  - right. split.
    { intros Hf. apply desktop_failure_body in Hf.
      by rewrite (desktop_body_success doc Hall) in Hf. }
    eexists _, _. rewrite (desktop_analyze_success doc Hall). split; [done|].
    intros Hf. apply desktop_failure_body in Hf.
    by rewrite (desktop_body_success doc Hall) in Hf.
Qed.

Lemma thread_func_returns basename path gui c b tr text c' b' :
  Desktop.analyze_pdf path = (Returns (c, b), tr) →
  DesktopUi.display_results c b (DesktopUi.result_text gui)
  = Some ({| content := text; editable := false |}, c', b') →
  DesktopUi.thread_func basename path gui
  = ((Returns tt, tr),
     {| DesktopUi.status_label := "Analysis complete: " +:+ basename;
        DesktopUi.process_button := true;
        DesktopUi.result_text := {| content := text; editable := false |} |}).
Proof.
  intros Hscan Hshow. unfold DesktopUi.thread_func. rewrite Hscan.
  cbn [fst snd DesktopUi.result_text DesktopUi.status_label
       DesktopUi.process_button].
  by rewrite Hshow.
Qed.

Lemma thread_func_raises basename path gui e tr :
  Desktop.analyze_pdf path = (Raises e, tr) →
  DesktopUi.thread_func basename path gui
  = ((Raises e, tr),
     {| DesktopUi.status_label := "Analyzing PDF: " +:+ basename +:+ "...";
        DesktopUi.process_button := false;
        DesktopUi.result_text := DesktopUi.result_text gui |}).
Proof. intros Hscan. unfold DesktopUi.thread_func. by rewrite Hscan. Qed.

(** X13: [thread_func] runs to its end unless the scan is cut short by an
    exception that is not an instance of [Exception].  When the first thing
    that fails in the scan raises such an exception, it leaves
    [thread_func] too: the status line still reads "Analyzing PDF: ...", the
    button stays disabled, the result box is untouched and no error is
    reported.  In every other case, also when the scan fails with an
    instance of [Exception], the status line ends as "Analysis complete:"
    followed by the file name, the button is enabled again and the result
    box is read-only; after a failed scan the result box is empty. *)
Theorem thread_func_finishes_unless_interrupted
    (basename : string) (file_path : Outcome (list Page)) (gui : DesktopUi.Gui) :
  (desktop_failure file_path OtherBaseException ∧
   DesktopUi.thread_func basename file_path gui
   = ((Raises OtherBaseException, (Desktop.analyze_pdf file_path).2),
      {| DesktopUi.status_label := "Analyzing PDF: " +:+ basename +:+ "...";
         DesktopUi.process_button := false;
         DesktopUi.result_text := DesktopUi.result_text gui |}) ∧
   Forall not_error (Desktop.analyze_pdf file_path).2) ∨
  (¬ desktop_failure file_path OtherBaseException ∧
   ∃ text,
     DesktopUi.thread_func basename file_path gui
     = ((Returns tt, (Desktop.analyze_pdf file_path).2),
        {| DesktopUi.status_label := "Analysis complete: " +:+ basename;
           DesktopUi.process_button := true;
           DesktopUi.result_text := {| content := text; editable := false |} |}) ∧
     (desktop_failure file_path Exception →
        text = EmptyString ∧ EvError ∈ (Desktop.analyze_pdf file_path).2)).
Proof.
  destruct (desktop_analyze_cases file_path)
    as [(Hf & Hscan & Hne)|(Hnf & c & b & Hscan & Hfail)].
  - left. split; [done|]. split; [|done]. by apply thread_func_raises.
  - right. split; [done|].
    destruct (display_results_shows c b) as (text & c' & b' & Hshow & Hempty).
    exists text. split.
    + by apply (thread_func_returns _ _ _ c b _ text c' b').
    + intros Hf. destruct (Hfail Hf) as [-> ->]. split; [by apply Hempty|].
      rewrite (desktop_analyze_failure _ Hf). apply elem_of_app. right. by left.
Qed.

Lemma nil_or_cons {A} (l : list A) : l = [] ∨ ∃ x t, l = x :: t.
Proof. destruct l; eauto. Qed.

(** X14: when the document opens and every page renders, the result box of
    the desktop front end shows the two lists that [analyze_pdf] returned,
    the first holding the pages that the classifier found Color and the
    second those it found Monochrome: nothing for a document without pages,
    one sentence with the page count when all pages fall in one class, and
    otherwise the formatted colour list followed by the formatted monochrome
    list, each with its size over the page count of the document. *)
Theorem desktop_report_of_a_scan
    (basename : string) (doc : list Page) (gui : DesktopUi.Gui) :
  Forall renders doc →
  ∃ c b text,
    (Desktop.analyze_pdf (Returns doc)).1 = Returns (c, b) ∧
    (∀ i pix, doc !! i = Some (Returns pix) →
       (page_number i ∈ c ↔ (classify pix).1 = Returns Color) ∧
       (page_number i ∈ b ↔ (classify pix).1 = Returns Monochrome)) ∧
    partitions c b (length doc) ∧
    DesktopUi.thread_func basename (Returns doc) gui
    = ((Returns tt, (Desktop.analyze_pdf (Returns doc)).2),
       {| DesktopUi.status_label := "Analysis complete: " +:+ basename;
          DesktopUi.process_button := true;
          DesktopUi.result_text := {| content := text; editable := false |} |}) ∧
    ((c = [] ∧ b = []) → text = EmptyString) ∧
    ((c ≠ [] ∧ b = []) →
       text = "All " +:+ str (Z.of_nat (length doc)) +:+ " pages contain color."
              +:+ nl +:+ nl) ∧
    ((c = [] ∧ b ≠ []) →
       text = "All " +:+ str (Z.of_nat (length doc))
              +:+ " pages are black and white." +:+ nl) ∧
    ((c ≠ [] ∧ b ≠ []) →
       text = "Color pages (" +:+ str_len c +:+ "/"
              +:+ str (Z.of_nat (length doc)) +:+ "): "
              +:+ spec_format c +:+ nl +:+ nl
              +:+ "Black and white pages (" +:+ str_len b +:+ "/"
              +:+ str (Z.of_nat (length doc)) +:+ "): "
              +:+ spec_format b +:+ nl).
Proof.
  intros Hall.
  pose proof (desktop_analyze_success doc Hall) as Hscan.
  pose proof (partitions_of_doc doc) as Hpart.
  pose proof (scan_lists_by_verdict doc) as Hverdict.
  set (c := color_pages_of doc (seq 0 (length doc))) in *.
  set (b := bw_pages_of doc (seq 0 (length doc))) in *.
  assert (length c + length b = length doc)%nat as Hlen by apply Hpart.
  exists c, b.
  assert (∀ text c' b',
    DesktopUi.display_results c b (DesktopUi.result_text gui)
    = Some ({| content := text; editable := false |}, c', b') →
    DesktopUi.thread_func basename (Returns doc) gui
    = ((Returns tt, (Desktop.analyze_pdf (Returns doc)).2),
       {| DesktopUi.status_label := "Analysis complete: " +:+ basename;
          DesktopUi.process_button := true;
          DesktopUi.result_text := {| content := text; editable := false |} |}))
    as Hthread.
  { intros text c' b' Hshow.
    apply (thread_func_returns _ _ _ c b _ text c' b'); [|done].
    by rewrite Hscan. }
  destruct (nil_or_cons c) as [Hc|(x & c0 & Hc)],
           (nil_or_cons b) as [Hb|(y & b0 & Hb)].
  - eexists. split; [by rewrite Hscan|]. split; [done|]. split; [done|]. split.
    { eapply Hthread. rewrite Hc, Hb. apply display_results_none. }
    rewrite Hc, Hb. box_cases.
  - eexists. split; [by rewrite Hscan|]. split; [done|]. split; [done|]. split.
    { eapply Hthread. rewrite Hc, Hb. apply display_results_all_bw. }
    rewrite <- Hlen, Hc, Hb. box_cases.
  - eexists. split; [by rewrite Hscan|]. split; [done|]. split; [done|]. split.
    { eapply Hthread. rewrite Hc, Hb. apply display_results_all_color. }
    rewrite <- Hlen, Hc, Hb. unfold str_len. cbn [length].
    rewrite Nat.add_0_r. box_cases.
  - eexists. split; [by rewrite Hscan|]. split; [done|]. split; [done|]. split.
    { eapply Hthread. rewrite Hc, Hb. apply display_results_mixed. }
    rewrite <- Hlen, Hc, Hb. box_cases.
Qed.

Lemma desktop_report_of_a_scan_witness :
  let gui := {| DesktopUi.status_label := "Ready"; DesktopUi.process_button := true;
                DesktopUi.result_text := {| content := "old"; editable := false |} |} in
  ∃ c b text,
    (Desktop.analyze_pdf (Returns three_pages)).1 = Returns (c, b) ∧
    (∀ i pix, three_pages !! i = Some (Returns pix) →
       (page_number i ∈ c ↔ (classify pix).1 = Returns Color) ∧
       (page_number i ∈ b ↔ (classify pix).1 = Returns Monochrome)) ∧
    partitions c b (length three_pages) ∧
    DesktopUi.thread_func "a.pdf" (Returns three_pages) gui
    = ((Returns tt, (Desktop.analyze_pdf (Returns three_pages)).2),
       {| DesktopUi.status_label := "Analysis complete: " +:+ "a.pdf";
          DesktopUi.process_button := true;
          DesktopUi.result_text := {| content := text; editable := false |} |}) ∧
    ((c = [] ∧ b = []) → text = EmptyString) ∧
    ((c ≠ [] ∧ b = []) →
       text = "All " +:+ str (Z.of_nat (length three_pages)) +:+ " pages contain color."
              +:+ nl +:+ nl) ∧
    ((c = [] ∧ b ≠ []) →
       text = "All " +:+ str (Z.of_nat (length three_pages))
              +:+ " pages are black and white." +:+ nl) ∧
    ((c ≠ [] ∧ b ≠ []) →
       text = "Color pages (" +:+ str_len c +:+ "/"
              +:+ str (Z.of_nat (length three_pages)) +:+ "): "
              +:+ spec_format c +:+ nl +:+ nl
              +:+ "Black and white pages (" +:+ str_len b +:+ "/"
              +:+ str (Z.of_nat (length three_pages)) +:+ "): "
              +:+ spec_format b +:+ nl).
Proof.
  intros gui. apply (desktop_report_of_a_scan "a.pdf" three_pages gui).
  unfold three_pages. repeat constructor; eexists; reflexivity.
Defined.

(** What the desktop front end prints for [three_pages]. *)
Example desktop_report_three_pages :
  DesktopUi.thread_func "a.pdf" (Returns three_pages)
    {| DesktopUi.status_label := "Ready"; DesktopUi.process_button := true;
       DesktopUi.result_text := {| content := "old"; editable := false |} |}
  = ((Returns tt,
      [EvOpen; EvRender 0; EvRead 0; EvRead 1; EvRead 2; EvAppend Color 1;
       EvRender 1; EvRead 0; EvRead 1; EvRead 2; EvAppend Monochrome 2;
       EvRender 2; EvAppend Monochrome 3; EvClose]),
     {| DesktopUi.status_label := "Analysis complete: a.pdf";
        DesktopUi.process_button := true;
        DesktopUi.result_text :=
          {| content := "Color pages (1/3): 1" +:+ nl +:+ nl
                        +:+ "Black and white pages (2/3): 2-3" +:+ nl;
             editable := false |} |}).
Proof. by vm_compute. Qed.

(** A scan interrupted at its second page leaves the window as
    [thread_func] had set it before the scan. *)
Example desktop_interrupted_scan :
  DesktopUi.thread_func "a.pdf"
    (Returns [Returns {| colorspace := None; samples := [] |};
              Raises OtherBaseException])
    {| DesktopUi.status_label := "Ready"; DesktopUi.process_button := true;
       DesktopUi.result_text := {| content := "old"; editable := false |} |}
  = ((Raises OtherBaseException,
      [EvOpen; EvRender 0; EvAppend Monochrome 1; EvRender 1]),
     {| DesktopUi.status_label := "Analyzing PDF: a.pdf...";
        DesktopUi.process_button := false;
        DesktopUi.result_text := {| content := "old"; editable := false |} |}).
Proof. by vm_compute. Qed.

Lemma main_uploaded_raises name file e tr :
  App.analyze_pdf file = (Raises e, tr) →
  AppUi.main_uploaded name file = (Raises e, tr).
Proof. intros H. unfold AppUi.main_uploaded. by rewrite H. Qed.

Lemma main_uploaded_nothing name file tr :
  App.analyze_pdf file = (Returns ([], [], 0), tr) →
  AppUi.main_uploaded name file = (Returns (main_banner name ++ [main_warning]), tr).
Proof.
  intros H. unfold AppUi.main_uploaded. rewrite H. unfold bind.
  cbn [fst snd]. rewrite bool_decide_eq_true_2 by done.
  cbn [ret fst snd]. by rewrite app_nil_r.
Qed.

(** [main] once the scan has returned lists that add up to a positive
    page count. *)
Lemma main_uploaded_pages name file c b tr :
  App.analyze_pdf file = (Returns (c, b, Z.of_nat (length c + length b)), tr) →
  (length c + length b ≠ 0)%nat →
  AppUi.main_uploaded name file
  = (Returns (main_banner name
           ++ [AppUi.st_columns 2;
               AppUi.st_metric "Total Pages" (Z.of_nat (length c + length b));
               AppUi.st_metric "Color Pages" (Z.of_nat (length c))]
           ++ match c with
              | [] => []
              | _ :: _ =>
                  [AppUi.st_expander "Color Pages";
                   AppUi.st_write
                     match b with
                     | [] => "All " +:+ str (Z.of_nat (length c + length b))
                             +:+ " pages contain color."
                     | _ :: _ => "Color pages (" +:+ str_len c +:+ "/"
                                 +:+ str (Z.of_nat (length c + length b)) +:+ "): "
                                 +:+ spec_format c
                     end]
              end
           ++ match b with
              | [] => []
              | _ :: _ =>
                  [AppUi.st_expander "Black and White Pages";
                   AppUi.st_write
                     match c with
                     | [] => "All " +:+ str (Z.of_nat (length c + length b))
                             +:+ " pages are black and white."
                     | _ :: _ => "Black and white pages (" +:+ str_len b +:+ "/"
                                 +:+ str (Z.of_nat (length c + length b)) +:+ "): "
                                 +:+ spec_format b
                     end]
              end),
     tr).
Proof.
  intros H Hpos. unfold AppUi.main_uploaded. rewrite H. unfold bind.
  cbn [fst snd]. rewrite bool_decide_eq_false_2 by lia.
  destruct c as [|x c], b as [|y b].
  - done.
  - rewrite (bool_decide_eq_false_2 ([] ≠ [])) by (intros Hn; by apply Hn).
    rewrite (bool_decide_eq_true_2 (y :: b ≠ [])) by done.
    rewrite bool_decide_eq_true_2 by (simpl; lia).
    cbn [ret fst snd app]. by rewrite app_nil_r.
  - rewrite (bool_decide_eq_true_2 (x :: c ≠ [])) by done.
    rewrite (bool_decide_eq_true_2 (Z.of_nat (length (x :: c)) = _)) by (simpl; lia).
    rewrite (bool_decide_eq_false_2 ([] ≠ [])) by (intros Hn; by apply Hn).
    cbn [ret fst snd app]. by rewrite app_nil_r.
  - rewrite (bool_decide_eq_true_2 (x :: c ≠ [])) by done.
    rewrite (bool_decide_eq_false_2 (Z.of_nat (length (x :: c)) = _)) by (simpl; lia).
    rewrite format_page_list_nonempty_eq. cbn [mbind option_bind fst snd].
    rewrite (bool_decide_eq_true_2 (y :: b ≠ [])) by done.
    rewrite (bool_decide_eq_false_2 (Z.of_nat (length (y :: b)) = _)) by (simpl; lia).
    rewrite format_page_list_nonempty_eq. cbn [mbind option_bind fst snd].
    cbn [ret fst snd app]. by rewrite app_nil_r.
Qed.

Lemma app_analyze_success_lengths file doc :
  App.write file = Returns tt → App.document file = Returns doc →
  Forall renders doc → App.unlink file = Returns tt →
  let c := color_pages_of doc (seq 0 (length doc)) in
  let b := bw_pages_of doc (seq 0 (length doc)) in
  (length c + length b = length doc)%nat ∧
  App.analyze_pdf file
  = (Returns (c, b, Z.of_nat (length c + length b)), (App.analyze_pdf file).2).
Proof.
  intros Hw Hd Hall Hu c b.
  pose proof (partitions_of_doc doc) as (_ & _ & _ & _ & Hlen).
  split; [done|]. fold c b in Hlen. rewrite Hlen.
  by rewrite (app_analyze_success file doc Hw Hd Hall Hu).
Qed.

(** X15: [main] of src/app.py gets past the scan unless the scan is cut
    short by an exception that is not an instance of [Exception], which
    leaves [main] as well.  In every other case it shows the success banner
    "Analysis complete", also after a scan that failed and reported an
    error, and it replaces the results by the warning "No pages were
    analyzed" exactly when the scan failed or went through on a document
    without pages. *)
Theorem main_warns_iff_nothing_analyzed (name : string) (file : App.Upload) :
  (app_failure file OtherBaseException ∧
   AppUi.main_uploaded name file
   = (Raises OtherBaseException, (App.analyze_pdf file).2)) ∨
  (¬ app_failure file OtherBaseException ∧
   ∃ shown,
     AppUi.main_uploaded name file
     = (Returns (main_banner name ++ shown), (App.analyze_pdf file).2) ∧
     (shown = [main_warning]
      ↔ app_failure file Exception ∨
        (App.write file = Returns tt ∧ App.document file = Returns [] ∧
         App.unlink file = Returns tt))).
Proof.
  destruct (app_cases file) as [[[] Hf]|(doc & Hw & Hd & Hall & Hu)].
  - right. split.
    { intros Hf'. by pose proof (app_failure_unique _ _ _ Hf Hf'). }
    pose proof (app_analyze_failure file Hf) as Hscan.
    rewrite (main_uploaded_nothing name file _ Hscan). rewrite Hscan. cbn [fst snd].
    eexists. split; [done|]. split; [by left|done].
  - left. split; [done|].
    pose proof (app_analyze_interrupted file Hf) as Hscan.
    rewrite (main_uploaded_raises name file _ _ Hscan). by rewrite Hscan.
  - right.
    assert (∀ e, ¬ app_failure file e) as Hnf.
    { intros e Hf. apply app_failure_body in Hf.
      by rewrite (app_body_success file doc Hw Hd Hall Hu) in Hf. }
    split; [apply Hnf|].
    destruct doc as [|page doc].
    + pose proof (app_analyze_success file [] Hw Hd Hall Hu) as Hscan.
      rewrite (main_uploaded_nothing name file _ Hscan). rewrite Hscan. cbn [fst snd].
      eexists. split; [done|]. split; [by right|done].
    + destruct (app_analyze_success_lengths file _ Hw Hd Hall Hu) as (Hlen & Hscan).
      rewrite (main_uploaded_pages name file _ _ _ Hscan) by (rewrite Hlen; simpl; lia).
      eexists. split; [done|]. split.
      * intros Heq. discriminate Heq.
      * intros [Hf|(_ & Hempty & _)]; [by apply Hnf in Hf|].
        rewrite Hd in Hempty. discriminate Hempty.
Qed.

(** X16: after a scan of [src/app.py] that completes on a document with at
    least one page, [main] shows the page count of the document as "Total
    Pages" and the size of the colour list as "Color Pages", where the two
    lists are the ones [analyze_pdf] returned, the first holding the pages
    that the classifier found Color and the second those it found
    Monochrome; a class without pages gets no section, a class that holds
    every page gets the sentence "All n pages ...", and otherwise each
    section shows the size of its list over the page count and the
    formatted list. *)
Theorem main_report_of_a_scan (name : string) (file : App.Upload) (doc : list Page) :
  App.write file = Returns tt → App.document file = Returns doc →
  Forall renders doc → App.unlink file = Returns tt → doc ≠ [] →
  ∃ c b,
    (App.analyze_pdf file).1 = Returns (c, b, Z.of_nat (length doc)) ∧
    (∀ i pix, doc !! i = Some (Returns pix) →
       (page_number i ∈ c ↔ (classify pix).1 = Returns Color) ∧
       (page_number i ∈ b ↔ (classify pix).1 = Returns Monochrome)) ∧
    partitions c b (length doc) ∧
    AppUi.main_uploaded name file
    = (Returns (main_banner name
            ++ [AppUi.st_columns 2;
                AppUi.st_metric "Total Pages" (Z.of_nat (length doc));
                AppUi.st_metric "Color Pages" (Z.of_nat (length c))]
            ++ match c with
               | [] => []
               | _ :: _ =>
                   [AppUi.st_expander "Color Pages";
                    AppUi.st_write
                      match b with
                      | [] => "All " +:+ str (Z.of_nat (length doc))
                              +:+ " pages contain color."
                      | _ :: _ => "Color pages (" +:+ str_len c +:+ "/"
                                  +:+ str (Z.of_nat (length doc)) +:+ "): "
                                  +:+ spec_format c
                      end]
               end
            ++ match b with
               | [] => []
               | _ :: _ =>
                   [AppUi.st_expander "Black and White Pages";
                    AppUi.st_write
                      match c with
                      | [] => "All " +:+ str (Z.of_nat (length doc))
                              +:+ " pages are black and white."
                      | _ :: _ => "Black and white pages (" +:+ str_len b +:+ "/"
                                  +:+ str (Z.of_nat (length doc)) +:+ "): "
                                  +:+ spec_format b
                      end]
               end),
       (App.analyze_pdf file).2).
Proof.
  intros Hw Hd Hall Hu Hne.
  destruct (app_analyze_success_lengths file _ Hw Hd Hall Hu) as (Hlen & Hscan).
  eexists _, _. split; [by rewrite (app_analyze_success file doc Hw Hd Hall Hu)|].
  split; [apply scan_lists_by_verdict|]. split; [apply partitions_of_doc|].
  rewrite (main_uploaded_pages name file _ _ _ Hscan)
    by (rewrite Hlen; destruct doc; [done|simpl; lia]).
  by rewrite Hlen.
Qed.

Lemma main_report_of_a_scan_witness :
  let file := {| App.write := Returns tt; App.document := Returns three_pages;
                 App.unlink := Returns tt |} in
  ∃ c b,
    (App.analyze_pdf file).1 = Returns (c, b, Z.of_nat (length three_pages)) ∧
    (∀ i pix, three_pages !! i = Some (Returns pix) →
       (page_number i ∈ c ↔ (classify pix).1 = Returns Color) ∧
       (page_number i ∈ b ↔ (classify pix).1 = Returns Monochrome)) ∧
    partitions c b (length three_pages) ∧
    AppUi.main_uploaded "a.pdf" file
    = (Returns (main_banner "a.pdf"
            ++ [AppUi.st_columns 2;
                AppUi.st_metric "Total Pages" (Z.of_nat (length three_pages));
                AppUi.st_metric "Color Pages" (Z.of_nat (length c))]
            ++ match c with
               | [] => []
               | _ :: _ =>
                   [AppUi.st_expander "Color Pages";
                    AppUi.st_write
                      match b with
                      | [] => "All " +:+ str (Z.of_nat (length three_pages))
                              +:+ " pages contain color."
                      | _ :: _ => "Color pages (" +:+ str_len c +:+ "/"
                                  +:+ str (Z.of_nat (length three_pages)) +:+ "): "
                                  +:+ spec_format c
                      end]
               end
            ++ match b with
               | [] => []
               | _ :: _ =>
                   [AppUi.st_expander "Black and White Pages";
                    AppUi.st_write
                      match c with
                      | [] => "All " +:+ str (Z.of_nat (length three_pages))
                              +:+ " pages are black and white."
                      | _ :: _ => "Black and white pages (" +:+ str_len b +:+ "/"
                                  +:+ str (Z.of_nat (length three_pages)) +:+ "): "
                                  +:+ spec_format b
                      end]
               end),
       (App.analyze_pdf file).2).
Proof.
  intros file.
  apply (main_report_of_a_scan "a.pdf" file three_pages); try reflexivity; [|done].
  unfold three_pages. repeat constructor; eexists; reflexivity.
Defined.

(** What [main] shows for [three_pages]. *)
Example main_report_three_pages :
  (AppUi.main_uploaded "a.pdf"
     {| App.write := Returns tt; App.document := Returns three_pages;
        App.unlink := Returns tt |}).1
  = Returns [AppUi.st_spinner "Analyzing PDF...";
             AppUi.st_success "Analysis complete: a.pdf";
             AppUi.st_subheader "Results";
             AppUi.st_columns 2;
             AppUi.st_metric "Total Pages" 3;
             AppUi.st_metric "Color Pages" 1;
             AppUi.st_expander "Color Pages";
             AppUi.st_write "Color pages (1/3): 1";
             AppUi.st_expander "Black and White Pages";
             AppUi.st_write "Black and white pages (2/3): 2-3"].
Proof. by vm_compute. Qed.

Example on_drop_path_braces :
  on_drop_path (chars "{C:/My Docs/a b.PDF}") = chars "C:/My Docs/a b.PDF".
Proof. by vm_compute. Qed.
Example on_drop_path_url :
  on_drop_path (chars "file:///C:/My%20Docs/a.pdf") = chars "C:/My Docs/a.pdf".
Proof. by vm_compute. Qed.
Example select_file_upper :
  select_file (chars "/tmp/REPORT.PdF") = StartProcess (chars "/tmp/REPORT.PdF").
Proof. by vm_compute. Qed.
Example py_replace_leftmost_first :
  py_replace (chars "%20") (chars " ") (chars "%%2020%20%2") = chars "% 20 %2".
Proof. by vm_compute. Qed.
Example py_strip_both_ends : py_strip (chars "{}") (chars "{{a}b}}{") = chars "a}b".
Proof. by vm_compute. Qed.

(** * Which paths the desktop front end analyses *)

Lemma pct20_chars :
  ∃ c1 c2 c3 sp : ascii,
    chars "%20" = [c1; c2; c3] ∧ chars " " = [sp] ∧
    sp ≠ c1 ∧ c1 ≠ c2 ∧ c1 ≠ c3 ∧ sp ≠ c2 ∧ sp ≠ c3.
Proof. eexists _, _, _, _. repeat split; done. Qed.

Section decode.

(** The pattern and its replacement, by their characters. *)
Context (c1 c2 c3 sp : ascii).
Context (Hsp1 : sp ≠ c1) (H12 : c1 ≠ c2) (H13 : c1 ≠ c3)
        (Hsp2 : sp ≠ c2) (Hsp3 : sp ≠ c3).


Lemma replace_go_old fuel rest :
  py_replace_go (S fuel) [c1; c2; c3] [sp] (c1 :: c2 :: c3 :: rest)
  = sp :: py_replace_go fuel [c1; c2; c3] [sp] rest.
Proof.
  cbn [py_replace_go]. rewrite bool_decide_eq_true_2 by (by exists rest). done.
Qed.

Lemma replace_go_other fuel c t :
  ¬ [c1; c2; c3] `prefix_of` (c :: t) →
  py_replace_go (S fuel) [c1; c2; c3] [sp] (c :: t) = c :: py_replace_go fuel [c1; c2; c3] [sp] t.
Proof. intros H. cbn [py_replace_go]. by rewrite bool_decide_eq_false_2. Qed.

Lemma replace_go_nil fuel : py_replace_go fuel [c1; c2; c3] [sp] [] = [].
Proof.
  destruct fuel; [done|]. cbn [py_replace_go].
  rewrite bool_decide_eq_false_2; [done|]. intros [k Hk]. discriminate Hk.
Qed.

Lemma starts_with_old_or_not (s : list ascii) :
  (∃ rest, s = c1 :: c2 :: c3 :: rest) ∨ ¬ [c1; c2; c3] `prefix_of` s.
Proof.
  destruct (decide ([c1; c2; c3] `prefix_of` s)) as [[k ->]|H]; [left; by eexists|by right].
Qed.

(** The output starts with the last two characters of the pattern only if
    the input does. *)
Lemma replace_go_head_20 fuel s r :
  py_replace_go fuel [c1; c2; c3] [sp] s = c2 :: c3 :: r →
  ∃ t, s = c2 :: c3 :: t.
Proof.
  destruct fuel as [|fuel]; [cbn [py_replace_go]; intros ->; by eexists|].
  destruct (starts_with_old_or_not s) as [[rest ->]|Hno].
  { rewrite replace_go_old. intros Heq. injection Heq as ? _. by destruct Hsp2. }
  destruct s as [|a t]; [by rewrite replace_go_nil|].
  rewrite replace_go_other by done. intros Heq. injection Heq as -> Hrest.
  destruct fuel as [|fuel]; [cbn [py_replace_go] in Hrest; subst t; by eexists|].
  change (py_replace_go (S fuel) [c1; c2; c3] [sp] t = c3 :: r) in Hrest.
  destruct (starts_with_old_or_not t) as [[rest Ht]|Hno'].
  { rewrite Ht, replace_go_old in Hrest. injection Hrest as ? _. by destruct Hsp3. }
  destruct t as [|b t]; [by rewrite replace_go_nil in Hrest|].
  rewrite replace_go_other in Hrest by done. injection Hrest as -> _.
  by eexists.
Qed.

(** After the replacement no occurrence of the pattern is left. *)
Lemma replace_go_no_occurrence fuel : ∀ s before after,
  (length s ≤ fuel)%nat →
  py_replace_go fuel [c1; c2; c3] [sp] s ≠ before ++ c1 :: c2 :: c3 :: after.
Proof.
  induction fuel as [|fuel IH]; intros s before after Hlen Heq.
  { destruct s; [|simpl in Hlen; lia]. by destruct before. }
  destruct (starts_with_old_or_not s) as [[rest ->]|Hno].
  - rewrite replace_go_old in Heq.
    destruct before as [|a before]; [injection Heq as ? _; by destruct Hsp1|].
    injection Heq as _ Heq. apply (IH rest before after); [|done].
    simpl in Hlen. lia.
  - destruct s as [|a t]; [rewrite replace_go_nil in Heq; by destruct before|].
    rewrite replace_go_other in Heq by done.
    destruct before as [|b before].
    + injection Heq as -> Heq.
      apply replace_go_head_20 in Heq as [t' ->].
      apply Hno. by exists t'.
    + injection Heq as _ Heq. apply (IH t before after); [|done].
      simpl in Hlen. lia.
Qed.

(** A text without the pattern is returned as it is. *)
Lemma replace_go_absent fuel : ∀ s,
  (∀ before after, s ≠ before ++ c1 :: c2 :: c3 :: after) →
  py_replace_go fuel [c1; c2; c3] [sp] s = s.
Proof.
  induction fuel as [|fuel IH]; intros s Hno; [done|].
  destruct s as [|a t]; [apply replace_go_nil|].
  rewrite replace_go_other.
  - f_equal. apply IH. intros before after ->. by apply (Hno (a :: before) after).
  - intros [k Hk]. by apply (Hno [] k).
Qed.

End decode.

Lemma decoded_has_no_pct20 (s : list ascii) :
  ¬ occurs_in (chars "%20") (py_replace (chars "%20") (chars " ") s).
Proof.
  intros (before & after & Heq). unfold py_replace in Heq.
  revert Heq. by apply replace_go_no_occurrence.
Qed.

Module LowerFacts.
Import Stdlib.Strings.Ascii.

(** Which characters lower to a character of ".pdf". *)
Lemma lower_char_inv (c : ascii) :
  (lower_char c = "."%char → c = "."%char) ∧
  (lower_char c = "p"%char → c = "p"%char ∨ c = "P"%char) ∧
  (lower_char c = "d"%char → c = "d"%char ∨ c = "D"%char) ∧
  (lower_char c = "f"%char → c = "f"%char ∨ c = "F"%char).
Proof.
  destruct c as [[] [] [] [] [] [] [] []]; vm_compute;
    repeat split; intros H; try discriminate H; auto.
Qed.

Lemma lower_ext_inv (ext : list ascii) :
  py_lower ext = chars ".pdf" → ext ∈ pdf_extensions.
Proof.
  destruct ext as [|a [|b [|c [|d [|e ext]]]]]; try done.
  intros [= Ha Hb Hc Hd].
  apply (proj1 (lower_char_inv a)) in Ha as ->.
  apply (proj1 (proj2 (lower_char_inv b))) in Hb.
  apply (proj1 (proj2 (proj2 (lower_char_inv c)))) in Hc.
  apply (proj2 (proj2 (proj2 (lower_char_inv d)))) in Hd.
  unfold pdf_extensions.
  destruct Hb as [-> | ->], Hc as [-> | ->], Hd as [-> | ->];
    apply list_elem_of_In; vm_compute; tauto.
Qed.

End LowerFacts.

Lemma lower_ext (ext : list ascii) :
  py_lower ext = chars ".pdf" ↔ ext ∈ pdf_extensions.
Proof.
  split; [apply LowerFacts.lower_ext_inv|].
  unfold pdf_extensions. intros H.
  repeat (apply elem_of_cons in H as [->|H]; [by vm_compute|]).
  by apply elem_of_nil in H.
Qed.

(** The extension test of both handlers looks at the last four characters
    and ignores their letter case. *)
Lemma endswith_lower_pdf (file_path : list ascii) :
  py_endswith (chars ".pdf") (py_lower file_path) = true ↔ has_pdf_extension file_path.
Proof.
  unfold py_endswith, has_pdf_extension, py_lower.
  rewrite bool_decide_eq_true. split.
  - intros [k Hk]. apply fmap_app_inv in Hk as (stem & ext & -> & Hext & ->).
    exists stem, ext. split; [done|]. by apply lower_ext.
  - intros (stem & ext & -> & Hext). apply lower_ext in Hext.
    exists (lower_char <$> stem). by rewrite fmap_app, <- Hext.
Qed.

(** X17: [select_file] does nothing when the dialog was cancelled (empty
    path), starts the analysis of the chosen path exactly when the path ends
    in ".pdf" in any mix of upper and lower case, and shows the error
    "Please select a PDF file." for every other path. *)
Theorem select_file_decision (file_path : list ascii) :
  (select_file file_path = NoAction ↔ file_path = []) ∧
  (select_file file_path = StartProcess file_path ↔ has_pdf_extension file_path) ∧
  (select_file file_path = ShowError "Please select a PDF file."
   ↔ file_path ≠ [] ∧ ¬ has_pdf_extension file_path) ∧
  (select_file [] = NoAction ∧ ¬ has_pdf_extension []).
Proof.
  assert (¬ has_pdf_extension []) as Hnil.
  { intros (stem & ext & Heq & Hext). symmetry in Heq.
    apply app_eq_nil in Heq as [_ ->]. unfold pdf_extensions in Hext.
    repeat (apply elem_of_cons in Hext as [Hext|Hext]; [discriminate Hext|]).
    by apply elem_of_nil in Hext. }
  unfold select_file.
  destruct (py_endswith (chars ".pdf") (py_lower file_path)) eqn:Hend.
  - apply endswith_lower_pdf in Hend.
    destruct file_path as [|c t]; [by destruct Hnil|].
    rewrite (bool_decide_eq_true_2 (c :: t ≠ [])) by done. cbn [andb].
    repeat split; try done; intros H; try discriminate H; tauto.
  - assert (¬ has_pdf_extension file_path) as Hno.
    { intros H. apply endswith_lower_pdf in H. congruence. }
    rewrite andb_false_r.
    destruct file_path as [|c t].
    + rewrite (bool_decide_eq_false_2 ([] ≠ [])) by (intros H; by apply H).
      repeat split; try done; intros H; try discriminate H; tauto.
    + rewrite (bool_decide_eq_true_2 (c :: t ≠ [])) by done.
      repeat split; try done; intros H; try discriminate H; tauto.
Qed.

(** X18: the path that [on_drop] hands to [process_pdf] is the path it
    made of the dropped text; [os.path.isfile] accepted it, it ends in
    ".pdf" in some letter case, and no "%20" is left in it: every encoded
    space has been decoded. *)
Theorem on_drop_starts_only_decoded_pdf (isfile : list ascii → bool)
    (data file_path : list ascii) :
  on_drop isfile data = StartProcess file_path →
  file_path = on_drop_path data ∧
  isfile file_path = true ∧
  has_pdf_extension file_path ∧
  (∀ before after, file_path ≠ before ++ chars "%20" ++ after).
Proof.
  unfold on_drop.
  destruct (isfile (on_drop_path data)) eqn:Hfile; [|done].
  destruct (py_endswith _ _) eqn:Hend; [|done].
  cbn [andb]. intros [= <-]. split; [done|]. split; [done|].
  split; [by apply endswith_lower_pdf|].
  intros before after Heq.
  apply (decoded_has_no_pct20
           (if py_startswith (chars "file:///")
                 (if py_startswith (chars "{") data
                  then py_strip (chars "{}") data else data)
            then drop 8 (if py_startswith (chars "{") data
                         then py_strip (chars "{}") data else data)
            else (if py_startswith (chars "{") data
                  then py_strip (chars "{}") data else data))).
  by exists before, after.
Qed.

Lemma on_drop_starts_only_decoded_pdf_witness :
  chars "C:/My Docs/a.PDF" = on_drop_path (chars "{file:///C:/My%20Docs/a.PDF}") ∧
  (λ _, true) (chars "C:/My Docs/a.PDF") = true ∧
  has_pdf_extension (chars "C:/My Docs/a.PDF") ∧
  (∀ before after, chars "C:/My Docs/a.PDF" ≠ before ++ chars "%20" ++ after).
Proof.
  apply (on_drop_starts_only_decoded_pdf (λ _, true)
           (chars "{file:///C:/My%20Docs/a.PDF}") (chars "C:/My Docs/a.PDF")).
  reflexivity.
Defined.

Lemma lstrip_id (set s : list ascii) :
  (∀ c, head s = Some c → c ∉ set) → py_lstrip set s = s.
Proof.
  destruct s as [|c t]; [done|]. intros H. cbn [py_lstrip].
  rewrite bool_decide_eq_false_2; [done|]. by apply H.
Qed.

Lemma strip_braces_quoted (p : list ascii) :
  no_brace_at_ends p →
  py_strip (chars "{}") (chars "{" ++ p ++ chars "}") = p.
Proof.
  intros [Hhead Hlast]. unfold py_strip.
  change (chars "{" ++ p ++ chars "}") with (chars "{" ++ (p ++ chars "}")).
  assert (py_lstrip (chars "{}") (chars "{" ++ (p ++ chars "}"))
          = py_lstrip (chars "{}") (p ++ chars "}")) as -> by done.
  destruct p as [|c t]; [done|].
  rewrite (lstrip_id _ ((c :: t) ++ chars "}"))
    by (intros c' Hc'; apply Hhead; exact Hc').
  rewrite reverse_app.
  assert (py_lstrip (chars "{}") (reverse (chars "}") ++ reverse (c :: t))
          = py_lstrip (chars "{}") (reverse (c :: t))) as -> by done.
  rewrite lstrip_id; [apply reverse_involutive|].
  intros c' Hc'. apply Hlast. by rewrite <- head_reverse.
Qed.

Lemma startswith_brace_false (p : list ascii) :
  no_brace_at_ends p → py_startswith (chars "{") p = false.
Proof.
  intros [Hhead _]. unfold py_startswith. apply bool_decide_eq_false_2.
  intros [k ->]. apply (Hhead _ eq_refl). by left.
Qed.

Lemma replace_absent (p : list ascii) :
  (∀ before after, p ≠ before ++ chars "%20" ++ after) →
  py_replace (chars "%20") (chars " ") p = p.
Proof. intros H. unfold py_replace. by apply replace_go_absent. Qed.

(** X19: a path that has no brace at either end, does not itself start with
    "file:///" and holds no "%20" comes out of [on_drop] unchanged, whether
    it is dropped as it is, wrapped in braces (as Tk does for a path with
    spaces) or as a "file:///" URL: the braces and the eight characters of
    the URL prefix are removed and nothing else. *)
Theorem on_drop_path_unwraps (p : list ascii) :
  no_brace_at_ends p →
  py_startswith (chars "file:///") p = false →
  (∀ before after, p ≠ before ++ chars "%20" ++ after) →
  on_drop_path p = p ∧
  on_drop_path (chars "{" ++ p ++ chars "}") = p ∧
  on_drop_path (chars "file:///" ++ p) = p.
Proof.
  intros Hends Hurl Hpct. unfold on_drop_path. split; [|split].
  - by rewrite (startswith_brace_false p Hends), Hurl, replace_absent.
  - assert (py_startswith (chars "{") (chars "{" ++ p ++ chars "}") = true) as ->.
    { apply bool_decide_eq_true_2. by eexists. }
    by rewrite (strip_braces_quoted p Hends), Hurl, replace_absent.
  - assert (py_startswith (chars "{") (chars "file:///" ++ p) = false) as ->.
    { apply bool_decide_eq_false_2. intros [k Hk]. discriminate Hk. }
    assert (py_startswith (chars "file:///") (chars "file:///" ++ p) = true) as ->.
    { apply bool_decide_eq_true_2. by eexists. }
    change (drop 8 (chars "file:///" ++ p)) with p.
    by apply replace_absent.
Qed.

Lemma on_drop_path_unwraps_witness :
  on_drop_path (chars "C:/My Docs/a.pdf") = chars "C:/My Docs/a.pdf" ∧
  on_drop_path (chars "{" ++ chars "C:/My Docs/a.pdf" ++ chars "}")
  = chars "C:/My Docs/a.pdf" ∧
  on_drop_path (chars "file:///" ++ chars "C:/My Docs/a.pdf")
  = chars "C:/My Docs/a.pdf".
Proof.
  apply (on_drop_path_unwraps (chars "C:/My Docs/a.pdf")).
  - split; intros c [= <-]; intros Hin;
      repeat (apply elem_of_cons in Hin as [Hin|Hin]; [discriminate Hin|]);
      by apply elem_of_nil in Hin.
  - reflexivity.
  - intros before after Heq.
    apply (decoded_has_no_pct20 (chars "C:/My Docs/a.pdf")).
    by exists before, after.
Defined.

(** * The text of the formatter determines the pages *)

Lemma string_app_cons c s t : String c s +:+ t = String c (s +:+ t).
Proof. reflexivity. Qed.

Lemma not_digit_intro (c : ascii) :
  Forall (λ d, c ≠ d) (chars "0123456789") → ¬ digit c.
Proof. intros H Hin. by apply (proj1 (Forall_forall _ _) H c Hin). Qed.

Lemma pretty_N_char_digit x : digit (pretty_N_char x).
Proof.
  unfold pretty_N_char, digit.
  repeat case_match; apply list_elem_of_In; vm_compute; tauto.
Qed.

Lemma pretty_N_go_digits x : ∀ s, digits s → digits (pretty_N_go x s).
Proof.
  induction (N.lt_wf_0 x) as [x _ IH]; intros s Hs.
  destruct (decide (x = 0)%N) as [->|Hx]; [by rewrite pretty_N_go_0|].
  rewrite pretty_N_go_step by lia. apply IH; [apply N.div_lt; lia|].
  split; [apply pretty_N_char_digit|done].
Qed.

Lemma pretty_N_go_nonempty x : ∀ s, s ≠ EmptyString → pretty_N_go x s ≠ EmptyString.
Proof.
  induction (N.lt_wf_0 x) as [x _ IH]; intros s Hs.
  destruct (decide (x = 0)%N) as [->|Hx]; [by rewrite pretty_N_go_0|].
  rewrite pretty_N_go_step by lia. apply IH; [apply N.div_lt; lia|done].
Qed.

(** [str] of a number that is not negative is a non-empty string of
    digits. *)
Lemma str_digits n : 0 ≤ n → digits (str n) ∧ str n ≠ EmptyString.
Proof.
  intros Hn. destruct n as [|p|p]; [| |lia].
  - split; [|done]. split; [|done]. apply list_elem_of_In. vm_compute. tauto.
  - unfold str, pretty, pretty_Z, pretty, pretty_positive, pretty, pretty_N.
    rewrite decide_False by done. rewrite pretty_N_go_step by lia. split.
    + apply pretty_N_go_digits. split; [apply pretty_N_char_digit|done].
    + by apply pretty_N_go_nonempty.
Qed.

(** Where a run of digits ends is determined by the text. *)
Lemma digits_split d1 : ∀ d2 t1 t2,
  digits d1 → digits d2 → no_digit_ahead t1 → no_digit_ahead t2 →
  d1 +:+ t1 = d2 +:+ t2 → d1 = d2 ∧ t1 = t2.
Proof.
  induction d1 as [|c d1 IH]; intros [|c2 d2] t1 t2 Hd1 Hd2 Ht1 Ht2 Heq.
  - done.
  - rewrite string_app_cons in Heq. change (EmptyString +:+ t1) with t1 in Heq.
    subst t1. by destruct Hd2 as [Hc _].
  - rewrite string_app_cons in Heq. change (EmptyString +:+ t2) with t2 in Heq.
    subst t2. by destruct Hd1 as [Hc _].
  - rewrite !string_app_cons in Heq. injection Heq as -> Heq.
    destruct Hd1 as [_ Hd1], Hd2 as [_ Hd2].
    destruct (IH d2 t1 t2 Hd1 Hd2 Ht1 Ht2 Heq) as [-> ->]. done.
Qed.

Module TextFacts.
Import Stdlib.Strings.Ascii.

Lemma dash_no_digit s : no_digit_ahead ("-" +:+ s).
Proof.
  apply not_digit_intro. repeat (constructor; [done|]). constructor.
Qed.

Lemma comma_no_digit s : no_digit_ahead (", " +:+ s).
Proof.
  apply not_digit_intro. repeat (constructor; [done|]). constructor.
Qed.

Lemma dash_is_not_comma s t : "-" +:+ s ≠ ", " +:+ t.
Proof. done. Qed.

Lemma dash_inj s t : "-" +:+ s = "-" +:+ t → s = t.
Proof.
  intros H. change (String "-"%char s = String "-"%char t) in H. by injection H.
Qed.

Lemma comma_inj s t : ", " +:+ s = ", " +:+ t → s = t.
Proof.
  intros H.
  change (String ","%char (String " "%char s) = String ","%char (String " "%char t)) in H.
  by injection H.
Qed.

End TextFacts.

Lemma join_cons item items :
  join ", " (item :: items) = item +:+ items_tail items.
Proof.
  destruct items as [|item' items]; [|done].
  cbn [join String.concat items_tail].
  induction item as [|c item IH]; [done|]. rewrite string_app_cons. by rewrite <- IH.
Qed.

Lemma items_tail_no_digit items : no_digit_ahead (items_tail items).
Proof. destruct items; [done|apply TextFacts.comma_no_digit]. Qed.

Lemma string_app_nil_r s : s +:+ EmptyString = s.
Proof. induction s as [|c s IH]; [done|]. by rewrite string_app_cons, IH. Qed.

Lemma str_inj a b : str a = str b → a = b.
Proof. unfold str. apply (inj pretty). Qed.

Lemma app_nonempty s t : s ≠ EmptyString → s +:+ t ≠ EmptyString.
Proof. destruct s; [done|]. by rewrite string_app_cons. Qed.


Lemma text_first s k items :
  join ", " (render_run (run_from s k) :: items) = str s +:+ after_first s k items.
Proof.
  rewrite join_cons, render_run_run_from. unfold render_range, after_first.
  destruct k as [|k].
  - by rewrite bool_decide_eq_true_2 by lia.
  - rewrite bool_decide_eq_false_2 by lia. by rewrite !string_app_assoc.
Qed.

Lemma after_first_no_digit s k items : no_digit_ahead (after_first s k items).
Proof.
  destruct k; [apply items_tail_no_digit|apply TextFacts.dash_no_digit].
Qed.

Lemma items_tail_inj (R1 R2 : list (list Z)) :
  (join ", " (render_run <$> R1) = join ", " (render_run <$> R2) → R1 = R2) →
  items_tail (render_run <$> R1) = items_tail (render_run <$> R2) → R1 = R2.
Proof.
  intros IH. destruct R1 as [|r1 R1], R2 as [|r2 R2]; try done.
  cbn [fmap list_fmap items_tail]. intros H. apply TextFacts.comma_inj in H.
  by apply IH.
Qed.

(** Two lists of runs with the same text are the same list. *)
Lemma runs_text_inj (R1 : list (list Z)) : ∀ R2,
  Forall good_run R1 → Forall good_run R2 →
  join ", " (render_run <$> R1) = join ", " (render_run <$> R2) → R1 = R2.
Proof.
  induction R1 as [|r1 R1 IH]; intros [|r2 R2] Hg1 Hg2 Heq.
  - done.
  - exfalso. apply Forall_cons in Hg2 as [(s & k & Hs & ->) _].
    rewrite fmap_cons, text_first in Heq. symmetry in Heq. revert Heq.
    apply app_nonempty, str_digits. done.
  - exfalso. apply Forall_cons in Hg1 as [(s & k & Hs & ->) _].
    rewrite fmap_cons, text_first in Heq. revert Heq.
    apply app_nonempty, str_digits. done.
  - apply Forall_cons in Hg1 as [(s1 & k1 & Hs1 & ->) Hg1].
    apply Forall_cons in Hg2 as [(s2 & k2 & Hs2 & ->) Hg2].
    rewrite !fmap_cons, !text_first in Heq.
    apply digits_split in Heq as [Hs Hrest];
      [|by apply str_digits|by apply str_digits
       |apply after_first_no_digit|apply after_first_no_digit].
    apply str_inj in Hs as <-.
    assert (items_tail (render_run <$> R1) = items_tail (render_run <$> R2)
            → R1 = R2) as Htail.
    { apply items_tail_inj. by apply IH. }
    destruct k1 as [|k1], k2 as [|k2]; cbn [after_first] in Hrest.
    + f_equal. by apply Htail.
    + exfalso. destruct R1; [done|].
      symmetry in Hrest. by apply TextFacts.dash_is_not_comma in Hrest.
    + exfalso. destruct R2; [done|].
      by apply TextFacts.dash_is_not_comma in Hrest.
    + apply TextFacts.dash_inj in Hrest.
      apply digits_split in Hrest as [He Hrest];
        [|apply str_digits; lia|apply str_digits; lia
         |apply items_tail_no_digit|apply items_tail_no_digit].
      apply str_inj in He. assert (k1 = k2) as -> by lia.
      f_equal. by apply Htail.
Qed.

Lemma group_runs_good (l : list Z) :
  Forall (λ x, 0 ≤ x) l → Forall good_run (group_runs l).
Proof.
  intros Hl. apply Forall_forall. intros run Hrun.
  pose proof (proj1 (Forall_forall _ _) (group_runs_is_run l) run Hrun)
    as (s & k & ->).
  exists s, k. split; [|done].
  apply (proj1 (Forall_forall _ _) Hl s).
  rewrite <- (group_runs_concat l). apply list_elem_of_join.
  exists (run_from s k). split; [|done].
  destruct (run_from_head s k) as [t ->]. by left.
Qed.

(** X20: on page numbers (numbers that are not negative) the text of
    [format_page_list] determines the pages: two lists get the same text
    exactly when they hold the same numbers the same number of times. *)
Theorem format_text_determines_pages (l1 l2 : list Z) :
  Forall (λ x, 0 ≤ x) l1 → Forall (λ x, 0 ≤ x) l2 →
  (fst <$> format_page_list l1 = fst <$> format_page_list l2 ↔ l1 ≡ₚ l2).
Proof.
  intros H1 H2. rewrite !format_page_list_eq. cbn [fmap option_fmap option_map fst].
  split.
  - intros [= Heq]. unfold spec_format in Heq.
    apply runs_text_inj in Heq.
    + apply (f_equal mjoin) in Heq. rewrite !group_runs_concat in Heq.
      by rewrite <- (py_sort_Permutation l1), Heq, py_sort_Permutation.
    + apply group_runs_good. by rewrite py_sort_Permutation.
    + apply group_runs_good. by rewrite py_sort_Permutation.
  - intros Hp. unfold spec_format. by rewrite (py_sort_permutation_eq l1 l2 Hp).
Qed.

Lemma format_text_determines_pages_witness :
  fst <$> format_page_list [3; 1; 2; 7] = fst <$> format_page_list [7; 2; 3; 1]
  ↔ [3; 1; 2; 7] ≡ₚ [7; 2; 3; 1].
Proof.
  apply (format_text_determines_pages [3; 1; 2; 7] [7; 2; 3; 1]);
    repeat constructor; lia.
Defined.

(** * Progress of a scan that fails *)

(** X21: in [src/app.py], when page index [i0] is the first page that does
    not render, whatever it raises, the progress bar has been updated
    [i0 + 1] times when the scan gives up: once for each page before it and
    once, ahead of the render, for the page that fails; nothing is reported
    for later pages. *)
Theorem progress_of_a_failed_scan
    (file : App.Upload) (doc : list Page) (i0 : nat) (e : Exc) :
  App.write file = Returns tt → App.document file = Returns doc →
  doc !! i0 = Some (Raises e) →
  (∀ j, (j < i0)%nat → ∃ pix, doc !! j = Some (Returns pix)) →
  filter is_progress (App.analyze_pdf file).2
  = (λ i, EvProgress (page_number i) (Z.of_nat (length doc))) <$> seq 0 (S i0).
Proof.
  intros Hw Hd Hbroken Hbefore.
  rewrite app_analyze_trace.
  rewrite (app_body_aborts file doc i0 e Hw Hd (conj Hbroken Hbefore)). cbn [fst snd].
  rewrite !filter_app, filter_progress_pages.
  - rewrite seq_S, fmap_app. destruct e; cbn; by rewrite ?app_nil_r.
  - intros i Hi. apply Hbefore. apply elem_of_seq in Hi. lia.
Qed.

Lemma progress_of_a_failed_scan_witness :
  filter is_progress
    (App.analyze_pdf {| App.write := Returns tt;
                        App.document := Returns second_page_broken;
                        App.unlink := Returns tt |}).2
  = (λ i, EvProgress (page_number i) (Z.of_nat (length second_page_broken)))
    <$> seq 0 2.
Proof.
  apply (progress_of_a_failed_scan _ second_page_broken 1 Exception); try reflexivity.
  intros j Hj. destruct j as [|j]; [by eexists|lia].
Defined.
